(** * Sewer-pipe defect database: the schema of [schema.py], the engine of
    [database.py], and the integrity properties of the stored data.

    The repository is declarative: [schema.py] declares thirteen mapped
    classes on one declarative [Base], and [database.py] binds them to a
    SQLite file and creates the tables.  The development follows that
    split:

    - [Schema]    the column and relationship declarations, class by class;
    - [Tables]    the tables the declarative base derives from the classes;
    - [Sqlite]    the storage backend the engine selects: values, rows,
                  table creation, and row insertion under the constraints
                  the emitted DDL carries;
    - [Database]  [DATABASE_URL], [engine], [SessionLocal], [create_tables];
    - [Orm]       the mapper configuration step that resolves the declared
                  relationships against each other;
    - [Integrity] the vocabulary of the properties; [Examples] sample data;
    - [Invariants] the schema checks and the invariants of the stored data.

    Rows are inserted at the level of the tables (an [INSERT] through the
    engine); the mapped classes themselves are only as usable as [Orm]
    says. *)

From Stdlib Require Import ZArith Lia Ascii String.
From stdpp Require Import gmap strings list fin_maps.

Local Open Scope string_scope.

(* ===================================================================== *)
(** ** Column and relationship declarations *)
(* ===================================================================== *)

Module Schema.

(** The column types imported from [sqlalchemy]. *)
Inductive sqltype : Type :=
  | Integer
  | String (length : option nat)
  | Float
  | Date
  | DateTime
  | Boolean.

#[global] Instance sqltype_eq_dec : EqDecision sqltype.
Proof. solve_decision. Defined.

(** [Column(type, ForeignKey(...), primary_key=, nullable=, autoincrement=)].
    A keyword that the source leaves out is [None]; [False] is the default
    of [primary_key]. *)
Record Column : Type := mkColumn {
  type_ : sqltype;
  foreign_key : option string;      (* the "table.column" of ForeignKey *)
  primary_key : bool;
  nullable_kw : option bool;
  autoincrement_kw : option bool;   (* None is the library's "auto" *)
}.

Definition column (t : sqltype) : Column :=
  {| type_ := t; foreign_key := None; primary_key := false;
     nullable_kw := None; autoincrement_kw := None |}.

Definition ForeignKey (target : string) (c : Column) : Column :=
  {| type_ := type_ c; foreign_key := Some target;
     primary_key := primary_key c; nullable_kw := nullable_kw c;
     autoincrement_kw := autoincrement_kw c |}.

Definition primary_key_True (c : Column) : Column :=
  {| type_ := type_ c; foreign_key := foreign_key c;
     primary_key := true; nullable_kw := nullable_kw c;
     autoincrement_kw := autoincrement_kw c |}.

Definition nullable (b : bool) (c : Column) : Column :=
  {| type_ := type_ c; foreign_key := foreign_key c;
     primary_key := primary_key c; nullable_kw := Some b;
     autoincrement_kw := autoincrement_kw c |}.

Definition autoincrement (b : bool) (c : Column) : Column :=
  {| type_ := type_ c; foreign_key := foreign_key c;
     primary_key := primary_key c; nullable_kw := nullable_kw c;
     autoincrement_kw := Some b |}.

(** Keyword arguments are written after the column, in the source's order. *)
Notation "c @: f" := (f c) (at level 45, left associativity, only parsing).

(** The [foreign_keys=] argument of a relationship: a list holding a column
    object of the class being defined, or a string evaluated later. *)
Inductive fk_argument : Type :=
  | ColumnObject (attribute : string)
  | Evaluated (expression : string).

(** [relationship(argument, back_populates=, foreign_keys=, uselist=)]. *)
Record Relationship : Type := mkRelationship {
  argument : string;
  back_populates : option string;
  foreign_keys : option fk_argument;
  uselist : option bool;
}.

Definition relationship (target : string) (bp : string) : Relationship :=
  {| argument := target; back_populates := Some bp;
     foreign_keys := None; uselist := None |}.

Definition relationship_fk (target : string) (fk : fk_argument) (bp : string)
  : Relationship :=
  {| argument := target; back_populates := Some bp;
     foreign_keys := Some fk; uselist := None |}.

Definition relationship_one (target : string) (bp : string) : Relationship :=
  {| argument := target; back_populates := Some bp;
     foreign_keys := None; uselist := Some false |}.

(** One assignment of a class body. *)
Inductive member : Type :=
  | Col (c : Column)
  | Rel (r : Relationship).

(** A class statement deriving from [Base]: its name, [__tablename__], and
    the assignments of its body in the order they are executed. *)
Record ClassDef : Type := mkClass {
  class_name : string;
  tablename : string;
  body : list (string * member);
}.

Definition Pipe : ClassDef := {|
  class_name := "Pipe";
  tablename := "pipe";
  body := [
    ("Pipe_ID", Col (column Integer @: primary_key_True));
    ("Installation_year", Col (column Integer @: nullable true));
    ("Diameter", Col (column Integer @: nullable true));
    ("Material", Col (column (String (Some 20%nat)) @: nullable true));
    ("Pipe_length", Col (column Float @: nullable true));
    ("Slope", Col (column Float @: nullable true));
    ("Depth", Col (column Float @: nullable true));
    ("Sewage_type", Col (column (String None) @: nullable true));
    ("Groundwater_level", Col (column Float @: nullable true));
    ("Trees_nearby", Col (column Integer @: nullable true));
    ("Shape", Col (column (String None) @: nullable true));
    ("Land_use_and_cover", Col (column (String None) @: nullable true));
    ("Bedding", Col (column (String None) @: nullable true));
    ("Joint_type", Col (column (String None) @: nullable true));
    ("Population", Col (column Integer @: nullable true));
    ("Sewer_connections", Col (column Integer @: nullable true));
    ("Climatic_condition", Col (column Float @: nullable true));
    ("Sewer_category", Col (column (String None) @: nullable true));
    ("Weather_station_ID", Col (column Integer @: nullable true));
    ("Installation_method", Col (column (String None) @: nullable true));
    ("Backfill_type", Col (column (String None) @: nullable true));
    ("Manufacturer", Col (column (String None) @: nullable true));
    ("Construction_quality", Col (column (String None) @: nullable true));
    ("Lining_type", Col (column (String None) @: nullable true));
    ("Design_life", Col (column Integer @: nullable true));
    ("Ground_level", Col (column Float @: nullable true));
    ("Wall_thickness", Col (column Float @: nullable true));
    ("Tidal_influence", Col (column Boolean @: nullable true));
    ("Frost_Action", Col (column Boolean @: nullable true));
    ("Water_quality", Col (column Float @: nullable true));
    ("Surcharge", Col (column Boolean @: nullable true));
    ("No_of_commercial_properties", Col (column Integer @: nullable true));
    ("No_of_direct_upstream_users", Col (column Integer @: nullable true));
    ("Seismic_activity_ID", Col (column Integer @: nullable true));
    ("Soil_pH", Col (column Float @: nullable true));
    ("Soil_type", Col (column (String None) @: nullable true));
    ("Soil_moisture", Col (column (String None) @: nullable true));
    ("Soil_resistivity", Col (column Float @: nullable true));
    ("Traffic_load", Col (column (String None) @: nullable true));
    ("Road_above", Col (column Boolean @: nullable true));
    ("Building_above", Col (column Boolean @: nullable true));
    ("Weather_station_ID",
       Col (column Integer @: ForeignKey "weather_station.Weather_station_ID"));
    ("Manhole_up_ID",
       Col (column Integer @: ForeignKey "manhole.Manhole_ID" @: nullable true));
    ("Manhole_down_ID",
       Col (column Integer @: ForeignKey "manhole.Manhole_ID" @: nullable true));
    ("weather_station", Rel (relationship "WeatherStation" "pipes"));
    ("upstream_manhole",
       Rel (relationship_fk "Manhole" (ColumnObject "Manhole_up_ID")
              "pipes_upstream"));
    ("downstream_manhole",
       Rel (relationship_fk "Manhole" (ColumnObject "Manhole_down_ID")
              "pipes_downstream"));
    ("hydraulic_properties", Rel (relationship_one "HydraulicProperties" "pipe"));
    ("interventions", Rel (relationship "InterventionHistory" "pipe"));
    ("failures", Rel (relationship "Failure" "pipe"));
    ("seismic_impact", Rel (relationship "PipeSeismicImpact" "pipe"));
    ("inspection", Rel (relationship "Inspection" "pipe"))
  ] |}.

Definition WeatherStation : ClassDef := {|
  class_name := "WeatherStation";
  tablename := "weather_station";
  body := [
    ("Weather_station_ID", Col (column Integer @: primary_key_True));
    ("X_coordinate", Col (column Float @: nullable true));
    ("Y_coordinate", Col (column Float @: nullable true));
    ("pipes", Rel (relationship "Pipe" "weather_station"));
    ("air_temperature_records",
       Rel (relationship "AirTemperature" "weather_station"));
    ("air_humidity_records", Rel (relationship "AirHumidity" "weather_station"));
    ("rainfall_records", Rel (relationship "Rainfall" "weather_station"))
  ] |}.

Definition Rainfall : ClassDef := {|
  class_name := "Rainfall";
  tablename := "rainfall";
  body := [
    ("Weather_station_ID",
       Col (column Integer @: ForeignKey "weather_station.Weather_station_ID"));
    ("id", Col (column Integer @: primary_key_True @: autoincrement true));
    ("Observation_time", Col (column Date));
    ("Frequency", Col (column (String None) @: nullable true));
    ("Statistics", Col (column (String None) @: nullable true));
    ("Intensity", Col (column Float @: nullable true));
    ("weather_station", Rel (relationship "WeatherStation" "rainfall_records"))
  ] |}.

Definition AirHumidity : ClassDef := {|
  class_name := "AirHumidity";
  tablename := "air_humidity";
  body := [
    ("air_humidity_id", Col (column Integer @: primary_key_True));
    ("Weather_station_ID",
       Col (column Integer @: ForeignKey "weather_station.Weather_station_ID"));
    ("Observation_time", Col (column Date));
    ("Frequency", Col (column (String None) @: nullable true));
    ("Statistics", Col (column (String None) @: nullable true));
    ("Humidity_value", Col (column Float @: nullable true));
    ("weather_station",
       Rel (relationship "WeatherStation" "air_humidity_records"))
  ] |}.

Definition AirTemperature : ClassDef := {|
  class_name := "AirTemperature";
  tablename := "air_temperature";
  body := [
    ("Weather_station_ID",
       Col (column Integer @: ForeignKey "weather_station.Weather_station_ID"));
    ("id", Col (column Integer @: primary_key_True @: autoincrement true));
    ("Observation_time", Col (column Date));
    ("Frequency", Col (column (String None) @: nullable true));
    ("Statistics", Col (column (String None) @: nullable true));
    ("Temperature_value", Col (column Float @: nullable true));
    ("weather_station",
       Rel (relationship "WeatherStation" "air_temperature_records"))
  ] |}.

Definition PipeSeismicImpact : ClassDef := {|
  class_name := "PipeSeismicImpact";
  tablename := "pipe_seismic_impact";
  body := [
    ("Pipe_ID",
       Col (column Integer @: ForeignKey "pipe.Pipe_ID" @: nullable false));
    ("Seismic_activity_ID",
       Col (column Integer @: ForeignKey "seismic_activity.Seismic_activity_ID"
              @: nullable false));
    ("id", Col (column Integer @: primary_key_True @: autoincrement true));
    ("pipe", Rel (relationship "Pipe" "seismic_impact"));
    ("seismic_activity", Rel (relationship "SeismicActivity" "pipe_impacts"))
  ] |}.

Definition SeismicActivity : ClassDef := {|
  class_name := "SeismicActivity";
  tablename := "seismic_activity";
  body := [
    ("Seismic_activity_ID", Col (column Integer @: primary_key_True));
    ("Seismic_type", Col (column (String None) @: nullable true));
    ("Reference_date", Col (column Date @: nullable true));
    ("Magnitude", Col (column Float @: nullable true));
    ("Depth_km", Col (column Float @: nullable true));
    ("X_coordinate", Col (column Float @: nullable true));
    ("Y_coordinate", Col (column Float @: nullable true));
    ("peak_ground_acceleration", Col (column Float @: nullable true));
    ("pipes", Rel (relationship "Pipe" "seismic_activity"));
    ("pipe_impacts", Rel (relationship "PipeSeismicImpact" "seismic_activity"))
  ] |}.

Definition Manhole : ClassDef := {|
  class_name := "Manhole";
  tablename := "manhole";
  body := [
    ("Manhole_ID", Col (column Integer @: primary_key_True));
    ("X_coordinate", Col (column Float @: nullable true));
    ("Y_coordinate", Col (column Float @: nullable true));
    ("pipes_upstream",
       Rel (relationship_fk "Pipe" (Evaluated "Pipe.Manhole_up_ID")
              "upstream_manhole"));
    ("pipes_downstream",
       Rel (relationship_fk "Pipe" (Evaluated "Pipe.Manhole_down_ID")
              "downstream_manhole"))
  ] |}.

Definition HydraulicProperties : ClassDef := {|
  class_name := "HydraulicProperties";
  tablename := "hydraulic_properties";
  body := [
    ("Pipe_ID",
       Col (column Integer @: ForeignKey "pipe.Pipe_ID" @: primary_key_True));
    ("Wet_peak_flow_rate", Col (column Float @: nullable true));
    ("Dry_peak_flow_rate", Col (column Float @: nullable true));
    ("Wet_peak_velocity", Col (column Float @: nullable true));
    ("Dry_peak_velocity", Col (column Float @: nullable true));
    ("Pipe_capacity", Col (column Float @: nullable true));
    ("pipe", Rel (relationship "Pipe" "hydraulic_properties"))
  ] |}.

Definition InterventionHistory : ClassDef := {|
  class_name := "InterventionHistory";
  tablename := "intervention_history";
  body := [
    ("Intervention_ID",
       Col (column Integer @: primary_key_True @: autoincrement true));
    ("Start_date", Col (column Date @: nullable true));
    ("End_date", Col (column Date @: nullable true));
    ("Type_of_intervention", Col (column (String None) @: nullable true));
    ("Planned_or_reactive", Col (column (String None) @: nullable true));
    ("Status", Col (column (String None) @: nullable true));
    ("Priority", Col (column (String None) @: nullable true));
    ("Pipe_ID",
       Col (column Integer @: ForeignKey "pipe.Pipe_ID" @: nullable false));
    ("Position_start", Col (column Float @: nullable true));
    ("Position_end", Col (column Float @: nullable true));
    ("Comments", Col (column (String None) @: nullable true));
    ("pipe", Rel (relationship "Pipe" "interventions"));
    ("failures", Rel (relationship "Failure" "intervention"))
  ] |}.

Definition Inspection : ClassDef := {|
  class_name := "Inspection";
  tablename := "inspection";
  body := [
    ("Inspection_ID", Col (column Integer @: primary_key_True));
    ("Pipe_ID",
       Col (column Integer @: ForeignKey "pipe.Pipe_ID" @: nullable false));
    ("Date", Col (column Date @: nullable true));
    ("Condition_rating", Col (column Integer @: nullable true));
    ("Survey_length", Col (column Float @: nullable true));
    ("Inspection_status", Col (column (String None) @: nullable true));
    ("Starting_manhole", Col (column (String None) @: nullable true));
    ("Comments", Col (column (String None) @: nullable true));
    ("pipe", Rel (relationship "Pipe" "inspection"));
    ("defects", Rel (relationship "Defect" "inspection"))
  ] |}.

Definition Defect : ClassDef := {|
  class_name := "Defect";
  tablename := "defect";
  body := [
    ("Defect_ID",
       Col (column Integer @: primary_key_True @: autoincrement true));
    ("Inspection_ID",
       Col (column Integer @: ForeignKey "inspection.Inspection_ID"
              @: nullable false));
    ("Main_defect_code", Col (column (String None) @: nullable false));
    ("Characterization_code", Col (column (String None) @: nullable true));
    ("Quantification", Col (column (String None) @: nullable true));
    ("Longitudinal_distance", Col (column Float @: nullable true));
    ("Circumferential_start", Col (column Integer @: nullable true));
    ("Circumferential_end", Col (column Integer @: nullable true));
    ("Comments", Col (column (String None) @: nullable true));
    ("inspection", Rel (relationship "Inspection" "defects"))
  ] |}.

Definition Failure : ClassDef := {|
  class_name := "Failure";
  tablename := "failure";
  body := [
    ("Failure_ID",
       Col (column Integer @: primary_key_True @: autoincrement true));
    ("Pipe_ID",
       Col (column Integer @: ForeignKey "pipe.Pipe_ID" @: nullable false));
    ("Intervention_ID",
       Col (column Integer @: ForeignKey "intervention_history.Intervention_ID"
              @: nullable true));
    ("Type_of_failure", Col (column (String None) @: nullable true));
    ("Date", Col (column Date @: nullable true));
    ("Cause", Col (column (String None) @: nullable true));
    ("Cause_location", Col (column (String None) @: nullable true));
    ("Damage_caused", Col (column (String None) @: nullable true));
    ("Comments", Col (column (String None) @: nullable true));
    ("pipe", Rel (relationship "Pipe" "failures"));
    ("intervention", Rel (relationship "InterventionHistory" "failures"))
  ] |}.

(** The classes registered on [Base], in the order the module defines them. *)
Definition Base : list ClassDef :=
  [ Pipe; WeatherStation; Rainfall; AirHumidity; AirTemperature;
    PipeSeismicImpact; SeismicActivity; Manhole; HydraulicProperties;
    InterventionHistory; Inspection; Defect; Failure ].

End Schema.

(* ===================================================================== *)
(** ** Tables derived by the declarative base *)
(* ===================================================================== *)

Module Tables.
Import Schema.

(** The class body runs as ordinary Python: assigning a name a second time
    replaces the first object, so only the last assignment of each name
    reaches the declarative scan (which orders columns by creation). *)
Fixpoint namespace (b : list (string * member)) : list (string * member) :=
  match b with
  | [] => []
  | (n, m) :: rest =>
      if existsb (fun nm => String.eqb n (fst nm)) rest
      then namespace rest
      else (n, m) :: namespace rest
  end.

Definition columns_of (b : list (string * member)) : list (string * Column) :=
  omap (fun nm => match snd nm with
                  | Col c => Some (fst nm, c)
                  | Rel _ => None
                  end) b.

Definition relationships_of (b : list (string * member))
  : list (string * Relationship) :=
  omap (fun nm => match snd nm with
                  | Rel r => Some (fst nm, r)
                  | Col _ => None
                  end) b.

Record Table : Type := mkTable {
  name : string;
  columns : list (string * Column);
}.

(** [cls.__table__] *)
Definition table_of (cls : ClassDef) : Table :=
  {| name := tablename cls; columns := columns_of (namespace (body cls)) |}.

(** [Base.metadata]: one table per class. *)
Definition metadata : list Table := map table_of Base.

Definition lookup_table (md : list Table) (t : string) : option Table :=
  find (fun tbl => String.eqb (name tbl) t) md.

Definition lookup_column (tbl : Table) (c : string) : option Column :=
  snd <$> find (fun nc => String.eqb (fst nc) c) (columns tbl).

(** [Column.nullable] when the keyword is absent: [not primary_key]. *)
Definition is_nullable (c : Column) : bool :=
  match nullable_kw c with
  | Some b => b
  | None => negb (primary_key c)
  end.

(** Split a dotted name at its dots. *)
Fixpoint split_dot (cur : string) (s : string) : list string :=
  match s with
  | EmptyString => [cur]
  | String.String a rest =>
      if Ascii.eqb a "."%char
      then cur :: split_dot "" rest
      else split_dot (cur +:+ String.String a "") rest
  end.

(** The table and column a [ForeignKey("table.column")] points at: the last
    two tokens of the dotted name. *)
Definition fk_target (spec : string) : option (string * string) :=
  match rev (split_dot "" spec) with
  | c :: t :: _ => Some (t, c)
  | _ => None
  end.

Definition references (c : Column) : option (string * string) :=
  foreign_key c ≫= fk_target.

Definition pk_columns (tbl : Table) : list (string * Column) :=
  filter (fun nc => primary_key (snd nc) = true) (columns tbl).

Definition pk_names (tbl : Table) : list string := fst <$> pk_columns tbl.

End Tables.

(* ===================================================================== *)
(** ** The storage backend: SQLite behind the engine *)
(* ===================================================================== *)

(** [database.py] selects SQLite through its URL.  What the claims observe
    of it is the effect of [CREATE TABLE] and of a single-row [INSERT] on
    the tables the metadata describes.  The constraints are the ones the
    emitted DDL carries: [NOT NULL] for a column that is not nullable,
    [PRIMARY KEY], and [FOREIGN KEY] for each [ForeignKey]; SQLite enforces
    the last kind only on a connection whose [foreign_keys] pragma is on. *)

Module Sqlite.
Import Schema Tables.

(** A bound value, by storage class: [NULL], a 64-bit signed [INTEGER], a
    [REAL] given by its IEEE-754 binary64 bit pattern, or [TEXT]. *)
Inductive value : Type :=
  | Null
  | Int (n : Z)
  | Real (bits : Z)
  | Text (s : string).

#[global] Instance value_eq_dec : EqDecision value.
Proof. solve_decision. Defined.

Definition is_null (v : value) : bool :=
  match v with Null => true | _ => false end.

(** A row, and the values of an [INSERT], bind column names to values. *)
Abbreviation row := (list (string * value)).

Definition get (r : row) (c : string) : value :=
  match find (fun cv => String.eqb (fst cv) c) r with
  | Some cv => snd cv
  | None => Null
  end.

Definition set (r : row) (c : string) (v : value) : row :=
  map (fun cv => if String.eqb (fst cv) c then (c, v) else cv) r.

(** The database file: the rows of each table that exists. *)
Abbreviation database := (gmap string (list row)).

Inductive error : Type :=
  | NoSuchTable (t : string)
  | NoSuchColumn (t c : string)
  | DatatypeMismatch (t c : string)
  | RowidExhausted
  | NotNullViolation (t c : string)
  | UniqueViolation (t : string) (cs : list string)
  | ForeignKeyViolation.

(** The failures the driver reports as a violated constraint
    ([IntegrityError]). *)
Definition is_constraint_violation (e : error) : bool :=
  match e with
  | NotNullViolation _ _ | UniqueViolation _ _ | ForeignKeyViolation => true
  | _ => false
  end.

Inductive result (A : Type) : Type :=
  | Ok (a : A)
  | Err (e : error).
Arguments Ok {A} a.
Arguments Err {A} e.

#[global] Instance result_bind : MBind result :=
  fun A B (k : A -> result B) (m : result A) =>
    match m with
    | Ok a => k a
    | Err e => Err e
    end.

(** A connection and its [foreign_keys] pragma. *)
Record Connection : Type := mkConnection { pragma_foreign_keys : bool }.

(** A new connection has the pragma off until a statement turns it on. *)
Definition new_connection : Connection := {| pragma_foreign_keys := false |}.

Definition min_int64 : Z := - 2 ^ 63.
Definition max_int64 : Z := 2 ^ 63 - 1.
Definition int64 (n : Z) : bool := (min_int64 <=? n)%Z && (n <=? max_int64)%Z.

(** A binary64 pattern with all exponent bits set and a non-zero fraction
    is a NaN, which SQLite binds as [NULL], not as a [REAL]. *)
Definition is_nan (bits : Z) : bool :=
  (2 ^ 63 - 2 ^ 52 <? Z.land bits (2 ^ 63 - 1))%Z.

(** The storage class each column type binds to.  [Date] and [DateTime]
    reach SQLite as ISO text and [Boolean] as 0 or 1.  A value of another
    class is refused here: the conversions SQLite would try on it are not
    part of this model. *)
Definition fits (t : sqltype) (v : value) : bool :=
  match v, t with
  | Null, _ => true
  | Int n, Integer => int64 n
  | Int n, Boolean => (n =? 0)%Z || (n =? 1)%Z
  | Real b, Float => (0 <=? b)%Z && (b <? 2 ^ 64)%Z && negb (is_nan b)
  | Text _, (String _ | Date | DateTime) => true
  | _, _ => false
  end.

Fixpoint check_values (tbl : Table) (vals : row) : result unit :=
  match vals with
  | [] => Ok tt
  | (c, v) :: rest =>
      match lookup_column tbl c with
      | None => Err (NoSuchColumn (name tbl) c)
      | Some col =>
          if fits (type_ col) v then check_values tbl rest
          else Err (DatatypeMismatch (name tbl) c)
      end
  end.

(** The full row: a column the statement leaves out is [NULL] (the schema
    declares no default). *)
Definition complete (tbl : Table) (vals : row) : row :=
  map (fun nc => (fst nc, get vals (fst nc))) (columns tbl).

(** A single [INTEGER] primary-key column is the table's rowid. *)
Definition rowid_alias (tbl : Table) : option string :=
  match pk_columns tbl with
  | [(n, c)] => match type_ c with Integer => Some n | _ => None end
  | _ => None
  end.

Definition rowids (pk : string) (rows : list row) : list Z :=
  omap (fun r => match get r pk with Int k => Some k | _ => None end) rows.

(** The rowid given to a row inserted with a [NULL] key: 1 in an empty
    table, else one more than the largest in use.  When the largest is
    already [max_int64] SQLite probes at random; that search is reported
    here as its failure. *)
Definition next_rowid (ids : list Z) : result Z :=
  match ids with
  | [] => Ok 1%Z
  | i :: rest =>
      let m := foldr Z.max i rest in
      if (m <? max_int64)%Z then Ok (m + 1)%Z else Err RowidExhausted
  end.

Definition assign_rowid (tbl : Table) (rows : list row) (r : row)
  : result row :=
  match rowid_alias tbl with
  | Some pk =>
      match get r pk with
      | Null => k ← next_rowid (rowids pk rows); Ok (set r pk (Int k))
      | _ => Ok r
      end
  | None => Ok r
  end.

Fixpoint check_not_null (t : string) (cols : list (string * Column)) (r : row)
  : result unit :=
  match cols with
  | [] => Ok tt
  | (n, c) :: rest =>
      if negb (is_nullable c) && is_null (get r n)
      then Err (NotNullViolation t n)
      else check_not_null t rest r
  end.

Definition key_of (tbl : Table) (r : row) : list value :=
  map (get r) (pk_names tbl).

(** Primary-key uniqueness; a key holding a [NULL] never collides. *)
Definition check_primary_key (tbl : Table) (rows : list row) (r : row)
  : result unit :=
  match pk_names tbl with
  | [] => Ok tt
  | _ =>
      if bool_decide (Null ∈ key_of tbl r) then Ok tt
      else if bool_decide (key_of tbl r ∈ map (key_of tbl) rows)
      then Err (UniqueViolation (name tbl) (pk_names tbl))
      else Ok tt
  end.

Definition has_row (db : database) (t c : string) (v : value) : bool :=
  match db !! t with
  | Some rows => existsb (fun r => bool_decide (get r c = v)) rows
  | None => false
  end.

Fixpoint check_foreign_keys (db : database) (cols : list (string * Column))
  (r : row) : result unit :=
  match cols with
  | [] => Ok tt
  | (n, c) :: rest =>
      match references c with
      | None => check_foreign_keys db rest r
      | Some (pt, pc) =>
          if is_null (get r n) then check_foreign_keys db rest r
          else match db !! pt with
               | None => Err (NoSuchTable pt)
               | Some _ =>
                   if has_row db pt pc (get r n)
                   then check_foreign_keys db rest r
                   else Err ForeignKeyViolation
               end
      end
  end.

(** [INSERT INTO t (...) VALUES (...)] on connection [conn]: the new
    database and the primary key of the stored row, or the error raised. *)
Definition insert (conn : Connection) (md : list Table) (db : database)
  (t : string) (vals : row) : result (database * list value) :=
  match lookup_table md t, db !! t with
  | Some tbl, Some rows =>
      check_values tbl vals;;
      r ← assign_rowid tbl rows (complete tbl vals);
      check_not_null t (columns tbl) r;;
      check_primary_key tbl rows r;;
      let db' := <[t := (rows ++ [r])%list]> db in
      (if pragma_foreign_keys conn
       then check_foreign_keys db' (columns tbl) r
       else Ok tt);;
      Ok (db', key_of tbl r)
  | _, _ => Err (NoSuchTable t)
  end.

(** [MetaData.create_all] with its default [checkfirst=True]: a table that
    already exists is skipped, a missing one is created empty. *)
Definition create_table (db : database) (tbl : Table) : database :=
  match db !! name tbl with
  | Some _ => db
  | None => <[name tbl := []]> db
  end.

Definition create_all (md : list Table) (db : database) : database :=
  foldl create_table db md.

End Sqlite.

(* ===================================================================== *)
(** ** [database.py] *)
(* ===================================================================== *)

Module Database.
Import Schema Tables Sqlite.

Definition DATABASE_URL : string := "sqlite:///sewer_database.db".

Record Engine : Type := mkEngine { url : string; echo : bool }.

Definition create_engine (u : string) (e : bool) : Engine :=
  {| url := u; echo := e |}.

Definition engine : Engine := create_engine DATABASE_URL true.

Record sessionmaker : Type := mkSessionmaker {
  bind_ : Engine;
  autoflush : bool;
  expire_on_commit : bool;
}.

Definition SessionLocal : sessionmaker :=
  {| bind_ := engine; autoflush := false; expire_on_commit := false |}.

(** A connection checked out of the engine.  The module registers no
    connect hook and runs no pragma, so it is SQLite's new connection. *)
Definition connect (e : Engine) : Connection := new_connection.

Definition create_tables (db : database) : database :=
  create_all metadata db.

(** A row inserted through the engine. *)
Definition insert_row (db : database) (t : string) (vals : row)
  : result (database * list value) :=
  insert (connect engine) metadata db t vals.

End Database.

(* ===================================================================== *)
(** ** Mapper configuration *)
(* ===================================================================== *)

(** Before the first instance of any mapped class is built, and before the
    first query, the ORM configures every mapper of the registry: each
    relationship resolves its target class, finds the foreign key that
    joins the two tables, and links itself to the property its
    [back_populates] names.  Table creation does not pass through here. *)

Module Orm.
Import Schema Tables.

Inductive config_error : Type :=
  | UnknownClass (cls rel target : string)
  | NoForeignKeys (cls rel : string)
  | AmbiguousForeignKeys (cls rel : string)
  | NoSuchProperty (target prop : string)
  | NotARelationship (target prop : string)
  | NotBackReference (cls rel : string)
  | SameDirection (cls rel : string).

Inductive direction : Type := ManyToOne | OneToMany.

Definition lookup_class (reg : list ClassDef) (n : string) : option ClassDef :=
  find (fun c => String.eqb (class_name c) n) reg.

Definition lookup_member (cls : ClassDef) (n : string) : option member :=
  snd <$> find (fun nm => String.eqb (fst nm) n) (namespace (body cls)).

(** The foreign-key columns of [src] that point into [dst], as
    (table, column). *)
Definition fk_columns_to (src dst : Table) : list (string * string) :=
  omap (fun nc =>
          match references (snd nc) with
          | Some (t, _) =>
              if String.eqb t (name dst) then Some (name src, fst nc) else None
          | None => None
          end) (columns src).

Definition join_candidates (parent target : ClassDef)
  : list (string * string) :=
  (fk_columns_to (table_of parent) (table_of target) ++
   (if String.eqb (tablename parent) (tablename target) then []
    else fk_columns_to (table_of target) (table_of parent)))%list.

(** The column a [foreign_keys=] argument denotes. *)
Definition resolve_fk (reg : list ClassDef) (cls : ClassDef) (a : fk_argument)
  : option (string * string) :=
  match a with
  | ColumnObject attr => Some (tablename cls, attr)
  | Evaluated e =>
      match split_dot "" e with
      | [c; attr] => (fun k => (tablename k, attr)) <$> lookup_class reg c
      | _ => None
      end
  end.

Definition pair_eqb (a b : string * string) : bool :=
  String.eqb (fst a) (fst b) && String.eqb (snd a) (snd b).

Definition join_columns (reg : list ClassDef) (cls target : ClassDef)
  (r : Relationship) : list (string * string) :=
  match foreign_keys r with
  | None => join_candidates cls target
  | Some a =>
      match resolve_fk reg cls a with
      | Some fk => List.filter (pair_eqb fk) (join_candidates cls target)
      | None => []
      end
  end.

Definition direction_of (reg : list ClassDef) (cls : ClassDef)
  (r : Relationship) : option direction :=
  match lookup_class reg (argument r) with
  | Some target =>
      match join_columns reg cls target r with
      | [(t, _)] =>
          Some (if String.eqb t (tablename cls) then ManyToOne else OneToMany)
      | _ => None
      end
  | None => None
  end.

Definition join_errors (reg : list ClassDef) (cls target : ClassDef)
  (n : string) (r : Relationship) : list config_error :=
  match join_columns reg cls target r with
  | [] => [NoForeignKeys (class_name cls) n]
  | [_] => []
  | _ => [AmbiguousForeignKeys (class_name cls) n]
  end.

Definition back_populates_errors (reg : list ClassDef) (cls target : ClassDef)
  (n : string) (r : Relationship) : list config_error :=
  match back_populates r with
  | None => []
  | Some bp =>
      match lookup_member target bp with
      | None => [NoSuchProperty (class_name target) bp]
      | Some (Col _) => [NotARelationship (class_name target) bp]
      | Some (Rel other) =>
          if negb (String.eqb (argument other) (class_name cls))
          then [NotBackReference (class_name cls) n]
          else match direction_of reg cls r, direction_of reg target other with
               | Some ManyToOne, Some ManyToOne
               | Some OneToMany, Some OneToMany =>
                   [SameDirection (class_name cls) n]
               | _, _ => []
               end
      end
  end.

(** What goes wrong for one relationship, in the order it is set up: the
    join condition first, the reverse property after it. *)
Definition relationship_errors (reg : list ClassDef) (cls : ClassDef)
  (nr : string * Relationship) : list config_error :=
  match lookup_class reg (argument (snd nr)) with
  | None => [UnknownClass (class_name cls) (fst nr) (argument (snd nr))]
  | Some target =>
      (join_errors reg cls target (fst nr) (snd nr) ++
       back_populates_errors reg cls target (fst nr) (snd nr))%list
  end.

Definition class_errors (reg : list ClassDef) (cls : ClassDef)
  : list config_error :=
  concat (map (relationship_errors reg cls)
              (relationships_of (namespace (body cls)))).

Definition mapper_errors (reg : list ClassDef) : list config_error :=
  concat (map (class_errors reg) reg).

(** [configure_mappers()]: the first error is raised, if there is one. *)
Definition configure_mappers (reg : list ClassDef) : option config_error :=
  head (mapper_errors reg).

(** [Cls(...)] and [session.query(Cls)]: both configure the registry
    first, whichever class they name. *)
Definition instantiate (reg : list ClassDef) (cls : string)
  : config_error + option ClassDef :=
  match configure_mappers reg with
  | Some e => inl e
  | None => inr (lookup_class reg cls)
  end.

Definition query (reg : list ClassDef) (cls : string)
  : config_error + option ClassDef :=
  match configure_mappers reg with
  | Some e => inl e
  | None => inr (lookup_class reg cls)
  end.

End Orm.

(* ===================================================================== *)
(** ** Vocabulary of the integrity properties *)
(* ===================================================================== *)

Module Integrity.
Import Schema Tables Sqlite Database.

(** The columns the DDL marks [NOT NULL]. *)
Definition not_null_columns (tbl : Table) : list string :=
  fst <$> filter (fun nc => is_nullable (snd nc) = false) (columns tbl).

(** The columns that carry a [ForeignKey], with the table and column each
    points at. *)
Definition fk_columns (tbl : Table) : list (string * (string * string)) :=
  omap (fun nc => (fun tgt => (fst nc, tgt)) <$> references (snd nc))
       (columns tbl).

(** The columns that are required although they are neither part of the
    primary key nor a foreign key. *)
Definition required_plain_columns (tbl : Table) : list (string * string) :=
  omap (fun nc =>
          if negb (is_nullable (snd nc)) && negb (primary_key (snd nc))
             && negb (bool_decide (is_Some (foreign_key (snd nc))))
          then Some (name tbl, fst nc) else None)
       (columns tbl).

(** Every foreign key of the metadata, as (table, column, target table). *)
Definition all_foreign_keys (md : list Table)
  : list (string * string * string) :=
  concat (map (fun tbl =>
                 map (fun f => (name tbl, fst f, fst (snd f))) (fk_columns tbl))
              md).

(** A table whose primary key is the rowid: one [Integer] column [pk]. *)
Definition rowid_table (tbl : Table) (pk : string) : Prop :=
  rowid_alias tbl = Some pk ∧ pk_names tbl = [pk] ∧
  type_ <$> lookup_column tbl pk = Some Integer.

Definition is_rowid_table (tbl : Table) : bool :=
  match rowid_alias tbl with
  | Some pk =>
      bool_decide (pk_names tbl = [pk]) &&
      bool_decide (type_ <$> lookup_column tbl pk = Some Integer)
  | None => false
  end.

(** The values are bound to columns of table [t] and each is [NULL] or of
    the storage class of its column. *)
Definition well_typed (t : string) (vals : row) : Prop :=
  ∃ tbl, lookup_table metadata t = Some tbl ∧ check_values tbl vals = Ok tt.

(** The key [k] the new row will carry: the one the statement gives, not
    yet in use, or the rowid SQLite picks when the statement gives none. *)
Definition key_free (rows : list row) (pk : string) (vals : row) (k : Z)
  : Prop :=
  (get vals pk = Int k ∧
   existsb (fun r => bool_decide (get r pk = Int k)) rows = false) ∨
  (get vals pk = Null ∧ next_rowid (rowids pk rows) = Ok k).

(** The value stored under column [n] once the key is [k]. *)
Definition stored (pk : string) (k : Z) (vals : row) (n : string) : value :=
  if String.eqb n pk then Int k else get vals n.

(** The stored row of an insert with values [vals] that received key [k]. *)
Definition stored_row (tbl : Table) (pk : string) (k : Z) (vals : row) : row :=
  set (complete tbl vals) pk (Int k).

(** Column [c] of the statement is [NULL] or names an existing row of the
    target: what a [ForeignKey] on [c] asks for. *)
Definition resolves (db : database) (vals : row) (c pt pc : string) : Prop :=
  get vals c = Null ∨ has_row db pt pc (get vals c) = true.

(** The foreign-key pass over the columns that carry one. *)
Fixpoint check_fk_list (db : database)
  (fks : list (string * (string * string))) (r : row) : result unit :=
  match fks with
  | [] => Ok tt
  | (n, (pt, pc)) :: rest =>
      if is_null (get r n) then check_fk_list db rest r
      else match db !! pt with
           | None => Err (NoSuchTable pt)
           | Some _ =>
               if has_row db pt pc (get r n) then check_fk_list db rest r
               else Err ForeignKeyViolation
           end
  end.

(** No two stored rows of a table share a primary key. *)
Definition pk_unique (db : database) : Prop :=
  ∀ tbl rows, tbl ∈ metadata → db !! name tbl = Some rows →
    NoDup (map (key_of tbl) rows).

(** The states the program can bring the database file to, from nothing:
    bootstrap, and rows inserted on any connection. *)
Inductive reachable : database → Prop :=
  | reachable_empty : reachable ∅
  | reachable_create db : reachable db → reachable (create_tables db)
  | reachable_insert conn db t vals db' key :
      reachable db →
      insert conn metadata db t vals = Ok (db', key) →
      reachable db'.

End Integrity.

(* ===================================================================== *)
(** ** Sample data *)
(* ===================================================================== *)

Module Examples.
Import Schema Tables Sqlite Database Integrity.

(** Run an insert through the engine; a refused statement changes nothing. *)
Definition exec (db : database) (t : string) (vals : row) : database :=
  match insert_row db t vals with
  | Ok (db', _) => db'
  | Err _ => db
  end.

(** The database right after the first bootstrap. *)
Definition fresh : database := create_tables ∅.

(** A small network: a weather station, two manholes, the pipe between
    them with its hydraulic record, an inspection, an intervention and a
    seismic event. *)
Definition network : database :=
  let db := fresh in
  let db := exec db "weather_station" [("Weather_station_ID", Int 1)] in
  let db := exec db "manhole" [("Manhole_ID", Int 100)] in
  let db := exec db "manhole" [("Manhole_ID", Int 101)] in
  let db := exec db "pipe"
    [("Pipe_ID", Int 10); ("Material", Text "PVC");
     ("Weather_station_ID", Int 1);
     ("Manhole_up_ID", Int 100); ("Manhole_down_ID", Int 101)] in
  let db := exec db "pipe" [("Pipe_ID", Int 11); ("Material", Text "VC")] in
  let db := exec db "hydraulic_properties" [("Pipe_ID", Int 10)] in
  let db := exec db "seismic_activity" [("Seismic_activity_ID", Int 7)] in
  let db := exec db "inspection" [("Inspection_ID", Int 5); ("Pipe_ID", Int 10)] in
  let db := exec db "intervention_history" [("Pipe_ID", Int 10)] in
  db.

(** One statement per foreign-key attribute, each pointing at row 999 of a
    target table that holds no such row. *)
Definition dangling : list (string * row) :=
  [ ("defect", [("Inspection_ID", Int 999); ("Main_defect_code", Text "BAB")]);
    ("inspection", [("Pipe_ID", Int 999)]);
    ("failure", [("Pipe_ID", Int 999)]);
    ("intervention_history", [("Pipe_ID", Int 999)]);
    ("pipe_seismic_impact",
       [("Pipe_ID", Int 999); ("Seismic_activity_ID", Int 7)]);
    ("pipe_seismic_impact",
       [("Pipe_ID", Int 10); ("Seismic_activity_ID", Int 999)]);
    ("hydraulic_properties", [("Pipe_ID", Int 999)]);
    ("pipe", [("Weather_station_ID", Int 999)]);
    ("pipe", [("Manhole_up_ID", Int 999)]);
    ("pipe", [("Manhole_down_ID", Int 999)]);
    ("rainfall", [("Weather_station_ID", Int 999)]);
    ("air_humidity", [("Weather_station_ID", Int 999)]);
    ("air_temperature", [("Weather_station_ID", Int 999)]);
    ("failure", [("Pipe_ID", Int 10); ("Intervention_ID", Int 999)]) ].

Definition accepted {A} (r : result A) : bool :=
  match r with Ok _ => true | Err _ => false end.

(** A defect running from 11 o'clock over the crown to 2 o'clock. *)
Definition wrap_defect : row :=
  [("Inspection_ID", Int 5); ("Main_defect_code", Text "BAB");
   ("Circumferential_start", Int 11); ("Circumferential_end", Int 2)].

(** A defect without its main code. *)
Definition uncoded_defect : row :=
  [("Inspection_ID", Int 5); ("Main_defect_code", Null);
   ("Longitudinal_distance", Real 4611686018427387904)].

(** A failure on pipe 10 that traces to no intervention. *)
Definition blockage : row :=
  [("Pipe_ID", Int 10); ("Type_of_failure", Text "blockage")].

(** A pipe pointing at a seismic event that is not recorded. *)
Definition shaken_pipe : row :=
  [("Pipe_ID", Int 12); ("Seismic_activity_ID", Int 4242);
   ("Manhole_up_ID", Int 100)].

(** A connection on which [PRAGMA foreign_keys = ON] was run. *)
Definition enforcing : Connection := {| pragma_foreign_keys := true |}.

(** A seismic-impact statement for pipe [p] and event [s]. *)
Definition impact (p s : Z) : row :=
  [("Pipe_ID", Int p); ("Seismic_activity_ID", Int s)].

Definition impact_row (p s id : Z) : row :=
  [("Pipe_ID", Int p); ("Seismic_activity_ID", Int s); ("id", Int id)].

End Examples.

(* ===================================================================== *)
(** ** Vocabulary of the schema and state invariants *)
(* ===================================================================== *)

Module Invariants.
Import Schema Tables Sqlite Database Orm Integrity.

(** The object a name denotes once a class body has run: the one of its
    last assignment. *)
Definition last_binding (b : list (string * member)) (n : string)
  : option member :=
  snd <$> find (fun nm => String.eqb (fst nm) n) (rev b).

(** A [ForeignKey] points at a declared table, at the single column of its
    primary key, and that column has the type of the referencing one. *)
Definition fk_target_ok (md : list Table) (c : Column) : bool :=
  match references c with
  | None => true
  | Some (pt, pc) =>
      match lookup_table md pt with
      | Some ptbl =>
          bool_decide (pk_names ptbl = [pc]) &&
          bool_decide (type_ <$> lookup_column ptbl pc = Some (type_ c))
      | None => false
      end
  end.

(** A primary-key column is not nullable. *)
Definition pk_not_null (c : Column) : bool :=
  negb (primary_key c) || negb (is_nullable c).

Definition table_ok (md : list Table) (tbl : Table) : bool :=
  bool_decide (NoDup (fst <$> columns tbl)) &&
  forallb (fun nc => fk_target_ok md (snd nc) && pk_not_null (snd nc))
          (columns tbl).

Definition schema_ok (md : list Table) : bool :=
  bool_decide (NoDup (name <$> md)) && forallb (table_ok md) md.

(** A stored row has exactly the columns of its table, in order; no
    column marked [NOT NULL] is [NULL]; and its key is a 64-bit integer. *)
Definition row_ok (tbl : Table) (r : row) : Prop :=
  fst <$> r = fst <$> columns tbl ∧
  Forall (fun n => get r n ≠ Null) (not_null_columns tbl) ∧
  Forall (fun pk => ∃ k, get r pk = Int k ∧ int64 k = true) (pk_names tbl).

Definition db_ok (db : database) : Prop :=
  ∀ tbl rows, tbl ∈ metadata → db !! name tbl = Some rows →
    Forall (row_ok tbl) rows.

(** Every foreign key of a stored row is [NULL] or names a stored row of
    its target. *)
Definition row_refs_ok (db : database) (tbl : Table) (r : row) : Prop :=
  Forall (fun f => get r f.1 = Null ∨
                   has_row db f.2.1 f.2.2 (get r f.1) = true)
         (fk_columns tbl).

Definition fk_sound (db : database) : Prop :=
  ∀ tbl rows, tbl ∈ metadata → db !! name tbl = Some rows →
    Forall (row_refs_ok db tbl) rows.

(** The states reached when every insert runs on a connection that has the
    [foreign_keys] pragma on. *)
Inductive reachable_enforcing : database → Prop :=
  | enforcing_empty : reachable_enforcing ∅
  | enforcing_create db :
      reachable_enforcing db → reachable_enforcing (create_tables db)
  | enforcing_insert conn db t vals db' key :
      reachable_enforcing db →
      pragma_foreign_keys conn = true →
      insert conn metadata db t vals = Ok (db', key) →
      reachable_enforcing db'.

(** The part of an insert that does not depend on the connection: the
    table, its rows, and the row to store once it passed the typing, key,
    [NOT NULL] and uniqueness steps. *)
Definition prepare (md : list Table) (db : database) (t : string) (vals : row)
  : result (Table * list row * row) :=
  match lookup_table md t, db !! t with
  | Some tbl, Some rows =>
      check_values tbl vals;;
      r ← assign_rowid tbl rows (complete tbl vals);
      check_not_null t (columns tbl) r;;
      check_primary_key tbl rows r;;
      Ok (tbl, rows, r)
  | _, _ => Err (NoSuchTable t)
  end.

(** Run an insert on a given connection; a refused statement changes
    nothing. *)
Definition exec_on (conn : Connection) (db : database) (t : string)
  (vals : row) : database :=
  match insert conn metadata db t vals with
  | Ok (db', _) => db'
  | Err _ => db
  end.

(** A few rows loaded, parents first, on a connection that enforces
    foreign keys. *)
Definition enforced_network : database :=
  let conn := {| pragma_foreign_keys := true |} in
  let db := create_tables ∅ in
  let db := exec_on conn db "manhole" [("Manhole_ID", Int 100)] in
  let db := exec_on conn db "pipe"
    [("Pipe_ID", Int 10); ("Manhole_up_ID", Int 100)] in
  let db := exec_on conn db "inspection" [("Pipe_ID", Int 10)] in
  let db := exec_on conn db "defect"
    [("Inspection_ID", Int 1); ("Main_defect_code", Text "BAB")] in
  let db := exec_on conn db "defect"
    [("Inspection_ID", Int 2); ("Main_defect_code", Text "BAB")] in
  db.

(** A class without the assignments of one name, and the registry with
    that change made to class [c]. *)
Definition without (n : string) (cls : ClassDef) : ClassDef :=
  {| class_name := class_name cls; tablename := tablename cls;
     body := List.filter (fun nm => negb (String.eqb (fst nm) n)) (body cls) |}.

Definition registry_without (c n : string) (reg : list ClassDef)
  : list ClassDef :=
  map (fun cls => if String.eqb (class_name cls) c then without n cls else cls)
      reg.

(** The relationship [nr] of [cls] and the property its [back_populates]
    names point at each other, from opposite ends of one foreign key. *)
Definition paired (reg : list ClassDef) (cls : ClassDef)
  (nr : string * Relationship) : bool :=
  match lookup_class reg (argument (snd nr)), back_populates (snd nr) with
  | Some target, Some bp =>
      match lookup_member target bp with
      | Some (Rel other) =>
          String.eqb (argument other) (class_name cls) &&
          bool_decide (back_populates other = Some (fst nr)) &&
          match direction_of reg cls (snd nr), direction_of reg target other
          with
          | Some ManyToOne, Some OneToMany
          | Some OneToMany, Some ManyToOne => true
          | _, _ => false
          end
      | _ => false
      end
  | _, _ => false
  end.

(** All relationships of the registry, as (class, attribute). *)
Definition all_relationships (reg : list ClassDef)
  : list (ClassDef * (string * Relationship)) :=
  concat (map (fun cls => map (fun nr => (cls, nr))
                              (relationships_of (namespace (body cls)))) reg).

End Invariants.

(* ===================================================================== *)
(** ** Table creation *)
(* ===================================================================== *)

Section CreateAll.
Import Schema Tables Sqlite Database.

Lemma create_table_keeps (db : database) tbl t rows :
  db !! t = Some rows → create_table db tbl !! t = Some rows.
Proof.
  intros Hl. unfold create_table.
  destruct (db !! name tbl) eqn:E; [done|].
  rewrite lookup_insert_ne; [done|]. intros Heq. rewrite Heq in E. congruence.
Qed.

Lemma create_all_keeps md (db : database) t rows :
  db !! t = Some rows → create_all md db !! t = Some rows.
Proof.
  unfold create_all. revert db.
  induction md as [|tbl md IH]; intros db Hl; simpl; [done|].
  apply IH. by apply create_table_keeps.
Qed.

Lemma create_table_fresh (db : database) tbl t :
  db !! t = None →
  create_table db tbl !! t = if String.eqb (name tbl) t then Some [] else None.
Proof.
  intros Hl. unfold create_table.
  destruct (String.eqb_spec (name tbl) t) as [->|Hne].
  - rewrite Hl. apply lookup_insert_eq.
  - destruct (db !! name tbl); [done|]. by rewrite lookup_insert_ne.
Qed.

Lemma create_all_fresh md (db : database) t :
  db !! t = None →
  create_all md db !! t =
    if existsb (fun tbl => String.eqb (name tbl) t) md then Some [] else None.
Proof.
  unfold create_all. revert db.
  induction md as [|tbl md IH]; intros db Hl; simpl; [done|].
  pose proof (create_table_fresh db tbl t Hl) as Hc.
  destruct (String.eqb (name tbl) t); simpl.
  - by apply (create_all_keeps md).
  - by apply IH.
Qed.

Lemma create_table_present (db : database) tbl :
  is_Some (db !! name tbl) → create_table db tbl = db.
Proof. intros [rows Hl]. unfold create_table. by rewrite Hl. Qed.

Lemma create_all_present md (db : database) :
  Forall (fun tbl => is_Some (db !! name tbl)) md → create_all md db = db.
Proof.
  unfold create_all. induction 1 as [|tbl md Hx _ IH]; simpl; [done|].
  by rewrite create_table_present.
Qed.

Lemma create_all_complete md (db : database) :
  Forall (fun tbl => is_Some (create_all md db !! name tbl)) md.
Proof.
  apply Forall_forall. intros tbl Hin.
  destruct (db !! name tbl) as [rows|] eqn:E.
  - exists rows. by apply create_all_keeps.
  - rewrite create_all_fresh; [|done].
    assert (existsb (fun tbl0 => String.eqb (name tbl0) (name tbl)) md = true)
      as ->; [|by eexists].
    apply existsb_exists. exists tbl. split.
    + by apply list_elem_of_In.
    + apply String.eqb_refl.
Qed.

Lemma create_all_idempotent md (db : database) :
  create_all md (create_all md db) = create_all md db.
Proof. apply create_all_present, create_all_complete. Qed.

End CreateAll.

(* ===================================================================== *)
(** ** Rows and the checks of an insert *)
(* ===================================================================== *)

Section Rows.
Import Schema Tables Sqlite Database Integrity.

Lemma get_cons (r : row) c' v c :
  get ((c', v) :: r) c = if String.eqb c' c then v else get r c.
Proof. unfold get. simpl. by destruct (String.eqb c' c). Qed.

Lemma get_complete tbl (vals : row) n :
  n ∈ (fst <$> columns tbl) → get (complete tbl vals) n = get vals n.
Proof.
  unfold complete.
  induction (columns tbl) as [|[c col] cols IH]; simpl; intros Hin.
  - by apply elem_of_nil in Hin.
  - rewrite get_cons.
    destruct (String.eqb_spec c n) as [->|Hne]; [done|].
    apply IH. apply elem_of_cons in Hin as [Heq|Hin]; [congruence|done].
Qed.

Lemma get_set_ne (r : row) pk v c : c ≠ pk → get (set r pk v) c = get r c.
Proof.
  intros Hne. induction r as [|[c' v'] r IH]; simpl; [done|].
  destruct (String.eqb_spec c' pk) as [->|Hc]; rewrite !get_cons.
  - destruct (String.eqb_spec pk c) as [->|_]; [done|]. apply IH.
  - by rewrite IH.
Qed.

Lemma get_set_eq (r : row) pk v :
  pk ∈ (fst <$> r) → get (set r pk v) pk = v.
Proof.
  induction r as [|[c' v'] r IH]; simpl; intros Hin.
  - by apply elem_of_nil in Hin.
  - destruct (String.eqb_spec c' pk) as [->|Hc]; rewrite get_cons.
    + by rewrite String.eqb_refl.
    + destruct (String.eqb_spec c' pk) as [|_]; [done|].
      apply IH. apply elem_of_cons in Hin as [Heq|Hin]; [congruence|done].
Qed.

Lemma complete_names tbl (vals : row) :
  fst <$> complete tbl vals = fst <$> columns tbl.
Proof.
  unfold complete. induction (columns tbl) as [|[c col] cols IH];
    [done|]. simpl in *. by f_equal.
Qed.

Lemma get_stored_row tbl pk k (vals : row) n :
  pk ∈ (fst <$> columns tbl) → n ∈ (fst <$> columns tbl) →
  get (stored_row tbl pk k vals) n = stored pk k vals n.
Proof.
  intros Hpk Hn. unfold stored_row, stored.
  destruct (String.eqb_spec n pk) as [->|Hne].
  - apply get_set_eq. by rewrite complete_names.
  - rewrite get_set_ne; [|done]. by apply get_complete.
Qed.

Lemma stored_row_explicit tbl pk k (vals : row) :
  get vals pk = Int k → stored_row tbl pk k vals = complete tbl vals.
Proof.
  intros Hk. unfold stored_row, set, complete.
  rewrite map_map. apply map_ext. intros [c col]. simpl.
  destruct (String.eqb_spec c pk) as [->|_]; [by rewrite Hk|done].
Qed.

Lemma lookup_column_elem tbl n c :
  lookup_column tbl n = Some c → n ∈ (fst <$> columns tbl).
Proof.
  unfold lookup_column.
  destruct (find _ (columns tbl)) as [[n' c']|] eqn:E; [|done].
  intros _. apply find_some in E as [Hin Heq]. simpl in Heq.
  apply String.eqb_eq in Heq as ->.
  apply list_elem_of_fmap. exists (n, c'). split; [done|].
  by apply list_elem_of_In.
Qed.

Lemma rowid_table_column tbl pk :
  rowid_table tbl pk → pk ∈ (fst <$> columns tbl).
Proof.
  intros (_ & _ & Hc).
  destruct (lookup_column tbl pk) as [c|] eqn:E; [|done].
  by eapply lookup_column_elem.
Qed.

Lemma not_null_columns_elem tbl n :
  n ∈ not_null_columns tbl → n ∈ (fst <$> columns tbl).
Proof.
  unfold not_null_columns. intros Hin.
  apply list_elem_of_fmap in Hin as (nc & -> & Hin).
  apply list_elem_of_filter in Hin as [_ Hin].
  apply list_elem_of_fmap. by exists nc.
Qed.

Lemma fk_columns_elem tbl n tgt :
  (n, tgt) ∈ fk_columns tbl → n ∈ (fst <$> columns tbl).
Proof.
  unfold fk_columns. intros Hin.
  apply list_elem_of_omap in Hin as (nc & Hin & Heq).
  destruct (references nc.2); simplify_eq/=.
  apply list_elem_of_fmap. by exists nc.
Qed.

(** A well-typed statement binds every column to [NULL] or to a value of
    the column's storage class. *)
Lemma check_values_fits tbl (vals : row) c col :
  check_values tbl vals = Ok tt → lookup_column tbl c = Some col →
  fits (type_ col) (get vals c) = true.
Proof.
  intros Hc Hl. induction vals as [|[c' v'] vals IH]; simpl in *.
  - by destruct (type_ col).
  - rewrite get_cons.
    destruct (lookup_column tbl c') as [col'|] eqn:E; [|done].
    destruct (fits (type_ col') v') eqn:F; [|done].
    destruct (String.eqb_spec c' c) as [->|_]; [|by apply IH].
    by simplify_eq.
Qed.

Lemma fits_Integer v :
  fits Integer v = true → v = Null ∨ ∃ k, v = Int k ∧ int64 k = true.
Proof. destruct v; simpl; intros H; eauto; done. Qed.

End Rows.

Section Checks.
Import Schema Tables Sqlite Database Integrity.

(** The [NOT NULL] pass reports the first required column left [NULL]. *)
Lemma check_not_null_find t tbl (r : row) :
  check_not_null t (columns tbl) r =
    match find (fun n => is_null (get r n)) (not_null_columns tbl) with
    | Some n => Err (NotNullViolation t n)
    | None => Ok tt
    end.
Proof.
  unfold not_null_columns.
  induction (columns tbl) as [|[n c] cols IH]; [done|].
  rewrite filter_cons. cbn [check_not_null snd].
  destruct (is_nullable c) eqn:E.
  - rewrite decide_False by done. apply IH.
  - rewrite decide_True by done. cbn [negb andb fmap list_fmap fst find].
    destruct (is_null (get r n)); [done|apply IH].
Qed.

Lemma check_foreign_keys_list (db : database) tbl (r : row) :
  check_foreign_keys db (columns tbl) r = check_fk_list db (fk_columns tbl) r.
Proof.
  unfold fk_columns.
  induction (columns tbl) as [|[n c] cols IH]; simpl; [done|].
  destruct (references c) as [[pt pc]|]; simpl; [|apply IH].
  rewrite IH. done.
Qed.

Lemma has_row_table (db : database) t c v :
  has_row db t c v = true → is_Some (db !! t).
Proof. unfold has_row. destruct (db !! t); [eauto|done]. Qed.

Lemma check_fk_list_ok (db : database) fks (r : row) :
  Forall (fun f => get r f.1 = Null ∨ has_row db f.2.1 f.2.2 (get r f.1) = true)
         fks →
  check_fk_list db fks r = Ok tt.
Proof.
  induction 1 as [|[n [pt pc]] fks Hx _ IH]; simpl in *; [done|].
  destruct Hx as [->|Hx]; [done|].
  destruct (is_null (get r n)); [done|].
  destruct (has_row_table _ _ _ _ Hx) as [rows ->]. by rewrite Hx.
Qed.

(** Rows already stored stay visible to a foreign key after an insert. *)
Lemma has_row_insert (db : database) t rows (r : row) pt pc v :
  db !! t = Some rows → has_row db pt pc v = true →
  has_row (<[t := (rows ++ [r])%list]> db) pt pc v = true.
Proof.
  intros Hl. unfold has_row.
  destruct (decide (t = pt)) as [->|Hne].
  - rewrite lookup_insert_eq, Hl, existsb_app. by intros ->.
  - by rewrite lookup_insert_ne.
Qed.

Lemma key_of_rowid tbl pk (r : row) :
  pk_names tbl = [pk] → key_of tbl r = [get r pk].
Proof. unfold key_of. by intros ->. Qed.

Lemma key_in_rows tbl pk (rows : list row) v :
  pk_names tbl = [pk] →
  [v] ∈ map (key_of tbl) rows ↔
  existsb (fun r => bool_decide (get r pk = v)) rows = true.
Proof.
  intros Hpk. rewrite existsb_exists. rewrite list_elem_of_In, in_map_iff.
  split.
  - intros (r & Hk & Hin). exists r. split; [done|].
    rewrite (key_of_rowid _ pk) in Hk by done. apply bool_decide_eq_true.
    congruence.
  - intros (r & Hin & Hk). exists r. split; [|done].
    rewrite (key_of_rowid _ pk) by done. apply bool_decide_eq_true in Hk.
    congruence.
Qed.

Lemma check_primary_key_rowid tbl pk (rows : list row) (r : row) k :
  pk_names tbl = [pk] → get r pk = Int k →
  check_primary_key tbl rows r =
    if existsb (fun r' => bool_decide (get r' pk = Int k)) rows
    then Err (UniqueViolation (name tbl) [pk]) else Ok tt.
Proof.
  intros Hpk Hk. unfold check_primary_key.
  rewrite (key_of_rowid _ pk), Hk, Hpk by done.
  rewrite bool_decide_eq_false_2.
  2:{ intros Hin. apply list_elem_of_singleton in Hin. done. }
  destruct (existsb _ rows) eqn:E.
  - rewrite bool_decide_eq_true_2; [done|].
    by apply (key_in_rows tbl pk rows (Int k) Hpk).
  - rewrite bool_decide_eq_false_2; [done|].
    intros Hin. apply (key_in_rows tbl pk rows (Int k) Hpk) in Hin.
    congruence.
Qed.

Lemma foldr_max_ge (i : Z) rest x :
  x ∈ i :: rest → (x ≤ foldr Z.max i rest)%Z.
Proof.
  induction rest as [|j rest IH]; simpl; intros Hin.
  - apply list_elem_of_singleton in Hin. lia.
  - apply elem_of_cons in Hin as [->|Hin].
    + assert (i ≤ foldr Z.max i rest)%Z by (apply IH; left). lia.
    + apply elem_of_cons in Hin as [->|Hin]; [lia|].
      assert (x ≤ foldr Z.max i rest)%Z by (apply IH; by right). lia.
Qed.

Lemma next_rowid_above (ids : list Z) k x :
  next_rowid ids = Ok k → x ∈ ids → (x < k)%Z.
Proof.
  destruct ids as [|i rest]; simpl; intros Hn Hin.
  - by apply elem_of_nil in Hin.
  - destruct (Z.ltb_spec (foldr Z.max i rest) max_int64); [|done].
    simplify_eq. pose proof (foldr_max_ge i rest x Hin). lia.
Qed.

Lemma foldr_max_in (i : Z) rest : foldr Z.max i rest ∈ i :: rest.
Proof.
  induction rest as [|j rest IH]; simpl; [left|].
  destruct (Z.max_spec j (foldr Z.max i rest)) as [[_ ->]|[_ ->]].
  - apply elem_of_cons in IH as [->|IH]; [left|right; by right].
  - right; left.
Qed.

(** With every rowid in use below [b], the next one exists and is at most
    [b]. *)
Lemma next_rowid_room (ids : list Z) b :
  Forall (fun i => (i < b)%Z) ids → (ids = [] → (1 ≤ b)%Z) →
  (b ≤ max_int64)%Z →
  ∃ k, next_rowid ids = Ok k ∧ (k ≤ b)%Z ∧ Forall (fun i => (i < k)%Z) ids.
Proof.
  intros Hall H1 Hb. destruct ids as [|i rest].
  - exists 1%Z. split; [done|]. split; [by apply H1|constructor].
  - pose proof (foldr_max_in i rest) as Hin.
    rewrite Forall_forall in Hall. pose proof (Hall _ Hin) as Hm.
    exists (foldr Z.max i rest + 1)%Z. unfold next_rowid.
    destruct (Z.ltb_spec (foldr Z.max i rest) max_int64); [|lia].
    split; [done|]. split; [lia|].
    apply Forall_forall. intros x Hx.
    pose proof (foldr_max_ge i rest x Hx). lia.
Qed.

(** The rowid SQLite picks is not the key of a stored row. *)
Lemma next_rowid_fresh pk (rows : list row) k :
  next_rowid (rowids pk rows) = Ok k →
  existsb (fun r => bool_decide (get r pk = Int k)) rows = false.
Proof.
  intros Hn. apply not_true_is_false. intros He.
  apply existsb_exists in He as (r & Hin & Hk).
  apply bool_decide_eq_true in Hk.
  assert (k ∈ rowids pk rows) as Hel.
  { unfold rowids. apply list_elem_of_omap. exists r. split.
    - by apply list_elem_of_In.
    - by rewrite Hk. }
  pose proof (next_rowid_above _ _ _ Hn Hel). lia.
Qed.

Lemma key_free_fresh (rows : list row) pk vals k :
  key_free rows pk vals k →
  existsb (fun r => bool_decide (get r pk = Int k)) rows = false.
Proof. intros [[_ H]|[_ H]]; [done|by apply next_rowid_fresh]. Qed.

Lemma assign_rowid_key tbl (rows : list row) (vals : row) pk k :
  rowid_table tbl pk → key_free rows pk vals k →
  assign_rowid tbl rows (complete tbl vals) = Ok (stored_row tbl pk k vals).
Proof.
  intros Hrt Hk. pose proof (rowid_table_column _ _ Hrt) as Hcol.
  destruct Hrt as (Ha & _ & _). unfold assign_rowid. rewrite Ha.
  rewrite get_complete by done.
  destruct Hk as [[Hv _]|[Hv Hn]]; rewrite Hv.
  - by rewrite stored_row_explicit.
  - by rewrite Hn.
Qed.

End Checks.

Section Insert.
Import Schema Tables Sqlite Database Integrity.

Lemma bind_Ok {A B} (a : A) (k : A → result B) : (Ok a ≫= k) = k a.
Proof. done. Qed.

Lemma bind_Err {A B} e (k : A → result B) : (Err e ≫= k) = Err e.
Proof. done. Qed.

Lemma find_ext_in {A} (f g : A → bool) (l : list A) :
  Forall (fun x => f x = g x) l → find f l = find g l.
Proof. induction 1 as [|x l Hx _ IH]; simpl; [done|]. by rewrite Hx, IH. Qed.

Lemma find_none_Forall {A} (f : A → bool) (l : list A) :
  Forall (fun x => f x = false) l → find f l = None.
Proof. induction 1 as [|x l Hx _ IH]; simpl; [done|]. by rewrite Hx. Qed.

(** The [NOT NULL] pass on the stored row, read off the statement. *)
Lemma check_not_null_stored t tbl pk k (vals : row) :
  rowid_table tbl pk →
  check_not_null t (columns tbl) (stored_row tbl pk k vals) =
    match find (fun n => is_null (stored pk k vals n)) (not_null_columns tbl)
    with
    | Some n => Err (NotNullViolation t n)
    | None => Ok tt
    end.
Proof.
  intros Hrt. rewrite check_not_null_find.
  rewrite (find_ext_in _ (fun n => is_null (stored pk k vals n))); [done|].
  apply Forall_forall. intros n Hn. rewrite get_stored_row; [done| |].
  - by apply rowid_table_column.
  - by apply not_null_columns_elem.
Qed.

Lemma check_foreign_keys_stored (db : database) tbl pk k (vals : row) :
  rowid_table tbl pk →
  Forall (fun f => stored pk k vals f.1 = Null ∨
                   has_row db f.2.1 f.2.2 (stored pk k vals f.1) = true)
         (fk_columns tbl) →
  check_foreign_keys db (columns tbl) (stored_row tbl pk k vals) = Ok tt.
Proof.
  intros Hrt Hfk. rewrite check_foreign_keys_list. apply check_fk_list_ok.
  apply Forall_forall. intros [n tgt] Hin.
  rewrite Forall_forall in Hfk. specialize (Hfk _ Hin).
  rewrite get_stored_row; [done| |].
  - by apply rowid_table_column.
  - by eapply fk_columns_elem.
Qed.

(** When an insert goes through: the table exists, the statement is well
    typed, the key is free, no required column is left [NULL], and, on a
    connection that enforces them, every foreign key resolves. *)
Lemma insert_ok conn md (db : database) t (vals : row) tbl rows pk k :
  lookup_table md t = Some tbl → db !! t = Some rows → rowid_table tbl pk →
  check_values tbl vals = Ok tt →
  key_free rows pk vals k →
  Forall (fun n => stored pk k vals n ≠ Null) (not_null_columns tbl) →
  (pragma_foreign_keys conn = true →
   Forall (fun f => stored pk k vals f.1 = Null ∨
                    has_row db f.2.1 f.2.2 (stored pk k vals f.1) = true)
          (fk_columns tbl)) →
  insert conn md db t vals =
    Ok (<[t := (rows ++ [stored_row tbl pk k vals])%list]> db, [Int k]).
Proof.
  intros Ht Hdb Hrt Hty Hkey Hnn Hfk.
  pose proof (rowid_table_column _ _ Hrt) as Hcol.
  unfold insert. rewrite Ht, Hdb, Hty, bind_Ok.
  rewrite (assign_rowid_key tbl rows vals pk k Hrt Hkey), bind_Ok.
  rewrite (check_not_null_stored t tbl pk k vals Hrt).
  rewrite find_none_Forall.
  2:{ eapply Forall_impl; [exact Hnn|]. intros n Hn. simpl in Hn.
      by destruct (stored pk k vals n). }
  rewrite bind_Ok.
  assert (get (stored_row tbl pk k vals) pk = Int k) as Hget.
  { rewrite get_stored_row by done. unfold stored.
    by rewrite String.eqb_refl. }
  destruct Hrt as (Ha & Hpk & Hc).
  rewrite (check_primary_key_rowid tbl pk rows _ k Hpk Hget).
  rewrite (key_free_fresh _ _ _ _ Hkey), bind_Ok.
  rewrite (key_of_rowid tbl pk _ Hpk), Hget.
  destruct (pragma_foreign_keys conn); [|done].
  rewrite check_foreign_keys_stored; [done|done|].
  eapply Forall_impl; [by apply Hfk|]. intros f [Hf|Hf]; [by left|right].
  by apply has_row_insert.
Qed.

(** What a successful insert went through. *)
Lemma insert_inv conn md (db db' : database) t (vals : row) key :
  insert conn md db t vals = Ok (db', key) →
  ∃ tbl rows r,
    lookup_table md t = Some tbl ∧ db !! t = Some rows ∧
    check_values tbl vals = Ok tt ∧
    assign_rowid tbl rows (complete tbl vals) = Ok r ∧
    check_not_null t (columns tbl) r = Ok tt ∧
    check_primary_key tbl rows r = Ok tt ∧
    db' = <[t := (rows ++ [r])%list]> db ∧ key = key_of tbl r.
Proof.
  unfold insert. intros H.
  destruct (lookup_table md t) as [tbl|]; [|done].
  destruct (db !! t) as [rows|]; [|done].
  destruct (check_values tbl vals) as [[]|] eqn:E1; [|done].
  rewrite bind_Ok in H.
  destruct (assign_rowid tbl rows (complete tbl vals)) as [r|] eqn:E2; [|done].
  rewrite bind_Ok in H.
  destruct (check_not_null t (columns tbl) r) as [[]|] eqn:E3; [|done].
  rewrite bind_Ok in H.
  destruct (check_primary_key tbl rows r) as [[]|] eqn:E4; [|done].
  rewrite bind_Ok in H.
  destruct (if pragma_foreign_keys conn then _ else _) as [[]|]; [|done].
  rewrite bind_Ok in H. simplify_eq.
  by exists tbl, rows, r.
Qed.

(** A required column left [NULL] is reported, whatever else holds. *)
Lemma insert_not_null conn md (db : database) t (vals : row) tbl rows pk k n :
  lookup_table md t = Some tbl → db !! t = Some rows → rowid_table tbl pk →
  check_values tbl vals = Ok tt →
  key_free rows pk vals k →
  find (fun n => is_null (stored pk k vals n)) (not_null_columns tbl) = Some n →
  insert conn md db t vals = Err (NotNullViolation t n).
Proof.
  intros Ht Hdb Hrt Hty Hkey Hnn.
  unfold insert. rewrite Ht, Hdb, Hty, bind_Ok.
  rewrite (assign_rowid_key tbl rows vals pk k Hrt Hkey), bind_Ok.
  by rewrite (check_not_null_stored t tbl pk k vals Hrt), Hnn.
Qed.

(** A key already in use is reported as a uniqueness violation. *)
Lemma insert_duplicate conn md (db : database) t (vals : row) tbl rows pk k :
  lookup_table md t = Some tbl → db !! t = Some rows → rowid_table tbl pk →
  check_values tbl vals = Ok tt →
  get vals pk = Int k →
  existsb (fun r => bool_decide (get r pk = Int k)) rows = true →
  find (fun n => is_null (stored pk k vals n)) (not_null_columns tbl) = None →
  insert conn md db t vals = Err (UniqueViolation (name tbl) [pk]).
Proof.
  intros Ht Hdb Hrt Hty Hk Hex Hnn.
  pose proof (rowid_table_column _ _ Hrt) as Hcol.
  unfold insert. rewrite Ht, Hdb, Hty, bind_Ok.
  assert (assign_rowid tbl rows (complete tbl vals)
          = Ok (stored_row tbl pk k vals)) as ->.
  { destruct Hrt as (Ha & _ & _). unfold assign_rowid.
    rewrite Ha, get_complete, Hk by done. by rewrite stored_row_explicit. }
  rewrite bind_Ok, (check_not_null_stored t tbl pk k vals Hrt), Hnn, bind_Ok.
  assert (get (stored_row tbl pk k vals) pk = Int k) as Hget.
  { rewrite get_stored_row by done. unfold stored.
    by rewrite String.eqb_refl. }
  destruct Hrt as (Ha & Hpk & Hc).
  by rewrite (check_primary_key_rowid tbl pk rows _ k Hpk Hget), Hex.
Qed.

End Insert.

(* ===================================================================== *)
(** ** Facts about the declared tables *)
(* ===================================================================== *)

Section Metadata.
Import Schema Tables Sqlite Database Integrity.

(** Every table of the metadata keys its rows by rowid. *)
Lemma metadata_rowid_tables :
  Forall (fun tbl => ∃ pk, rowid_table tbl pk) metadata.
Proof.
  assert (forallb is_rowid_table metadata = true) as H by (vm_compute; done).
  rewrite forallb_forall in H. apply Forall_forall. intros tbl Hin.
  apply list_elem_of_In, H in Hin. unfold is_rowid_table in Hin.
  destruct (rowid_alias tbl) as [pk|] eqn:E; [|done].
  apply andb_true_iff in Hin as [H1 H2].
  apply bool_decide_eq_true in H1, H2. by exists pk.
Qed.

(** Table names identify the tables. *)
Lemma metadata_lookup :
  Forall (fun tbl => lookup_table metadata (name tbl) = Some tbl) metadata.
Proof.
  unfold metadata, Base. simpl map.
  repeat (apply Forall_cons; split; [vm_compute; reflexivity|]).
  constructor.
Qed.

Lemma lookup_table_elem md t tbl :
  lookup_table md t = Some tbl → tbl ∈ md ∧ name tbl = t.
Proof.
  unfold lookup_table. intros H. apply find_some in H as [Hin Heq].
  split; [by apply list_elem_of_In|by apply String.eqb_eq].
Qed.

Lemma metadata_rowid t tbl :
  lookup_table metadata t = Some tbl → ∃ pk, rowid_table tbl pk.
Proof.
  intros H. apply lookup_table_elem in H as [Hin _].
  pose proof metadata_rowid_tables as Hall.
  rewrite Forall_forall in Hall. by apply Hall.
Qed.

(** The row an insert stores, from what the statement gave. *)
Lemma assign_rowid_stored tbl pk (rows : list row) (vals r : row) :
  rowid_table tbl pk → check_values tbl vals = Ok tt →
  assign_rowid tbl rows (complete tbl vals) = Ok r →
  ∃ k, r = stored_row tbl pk k vals ∧ get r pk = Int k.
Proof.
  intros Hrt Hty Ha. pose proof (rowid_table_column _ _ Hrt) as Hcol.
  destruct Hrt as (Hal & Hpk & Hc).
  destruct (lookup_column tbl pk) as [c|] eqn:E; [|done].
  simpl in Hc. pose proof (check_values_fits _ _ _ _ Hty E) as Hfit.
  assert (type_ c = Integer) as Hc' by congruence. rewrite Hc' in Hfit.
  unfold assign_rowid in Ha. rewrite Hal, get_complete in Ha by done.
  apply fits_Integer in Hfit as [Hn|(k & Hk & _)].
  - rewrite Hn in Ha.
    destruct (next_rowid (rowids pk rows)) as [k|]; [|done].
    rewrite bind_Ok in Ha. simplify_eq. exists k. split; [done|].
    apply get_set_eq. by rewrite complete_names.
  - rewrite Hk in Ha. simplify_eq. exists k.
    rewrite stored_row_explicit by done. split; [done|].
    by rewrite get_complete.
Qed.

Lemma pk_unique_empty : pk_unique ∅.
Proof. intros tbl rows _ H. by rewrite lookup_empty in H. Qed.

Lemma pk_unique_create (db : database) :
  pk_unique db → pk_unique (create_tables db).
Proof.
  intros Hu tbl rows Hin Hl. unfold create_tables in Hl.
  destruct (db !! name tbl) as [rows0|] eqn:E.
  - rewrite (create_all_keeps _ _ _ _ E) in Hl. simplify_eq. by eapply Hu.
  - rewrite (create_all_fresh _ _ _ E) in Hl.
    destruct (existsb _ metadata); simplify_eq. constructor.
Qed.

Lemma pk_unique_insert conn (db db' : database) t (vals : row) key :
  pk_unique db → insert conn metadata db t vals = Ok (db', key) →
  pk_unique db'.
Proof.
  intros Hu Hi.
  apply insert_inv in Hi
    as (tbl & rows & r & Ht & Hdb & Hty & Ha & _ & Hpk & -> & _).
  destruct (metadata_rowid _ _ Ht) as [pk Hrt].
  destruct (assign_rowid_stored _ _ _ _ _ Hrt Hty Ha) as (k & _ & Hk).
  pose proof (lookup_table_elem _ _ _ Ht) as [Hin Hname].
  intros tbl' rows' Hin' Hl'.
  destruct (decide (name tbl' = t)) as [Heq|Hne].
  - assert (tbl' = tbl) as ->.
    { pose proof metadata_lookup as Hall. rewrite Forall_forall in Hall.
      specialize (Hall _ Hin'). rewrite Heq in Hall. congruence. }
    rewrite Heq, lookup_insert_eq in Hl'. simplify_eq.
    rewrite map_app. simpl. apply NoDup_app. split; [|split].
    + by apply Hu.
    + intros x Hx Hx'. apply list_elem_of_singleton in Hx'. subst x.
      destruct Hrt as (_ & Hnames & _).
      rewrite (check_primary_key_rowid tbl pk rows r k Hnames Hk) in Hpk.
      rewrite (key_of_rowid tbl pk r Hnames), Hk in Hx.
      apply (key_in_rows tbl pk rows (Int k) Hnames) in Hx.
      by rewrite Hx in Hpk.
    + apply NoDup_singleton.
  - rewrite lookup_insert_ne in Hl' by done. by eapply Hu.
Qed.

Lemma reachable_pk_unique (db : database) : reachable db → pk_unique db.
Proof.
  induction 1 as [|db _ IH|conn db t vals db' key _ IH Hi].
  - apply pk_unique_empty.
  - by apply pk_unique_create.
  - by eapply pk_unique_insert.
Qed.

End Metadata.

(* ===================================================================== *)
(** ** The properties *)
(* ===================================================================== *)

Section Properties.
Import Schema Tables Sqlite Database Integrity Orm Examples.

(** The engine's connections never report a foreign-key violation. *)
Lemma check_values_not_fk tbl (vals : row) :
  check_values tbl vals ≠ Err ForeignKeyViolation.
Proof.
  induction vals as [|[c v] vals IH]; simpl; [done|].
  destruct (lookup_column tbl c); [|done]. by destruct (fits _ v).
Qed.

Lemma insert_row_not_fk (db : database) t (vals : row) :
  insert_row db t vals ≠ Err ForeignKeyViolation.
Proof.
  unfold insert_row, insert.
  change (pragma_foreign_keys (connect engine)) with false.
  destruct (lookup_table metadata t) as [tbl|]; [|done].
  destruct (db !! t) as [rows|]; [|done].
  pose proof (check_values_not_fk tbl vals).
  destruct (check_values tbl vals) as [[]|]; [|by rewrite bind_Err; congruence].
  rewrite bind_Ok.
  assert (assign_rowid tbl rows (complete tbl vals) ≠ Err ForeignKeyViolation).
  { unfold assign_rowid. destruct (rowid_alias tbl); [|done].
    destruct (get _ _); try done. unfold next_rowid.
    destruct (rowids _ _); [done|]. by destruct (_ <? _)%Z. }
  destruct (assign_rowid tbl rows (complete tbl vals)) as [r|];
    [|by rewrite bind_Err; congruence].
  rewrite bind_Ok, check_not_null_find.
  destruct (find _ (not_null_columns tbl)); [done|]. rewrite bind_Ok.
  unfold check_primary_key.
  destruct (pk_names tbl); [done|].
  destruct (bool_decide _); [done|]. by destruct (bool_decide _).
Qed.

(** C1, as the code behaves: on the sample network a row whose foreign
    key names no existing target row is stored through the engine, for
    each foreign-key attribute of the schema; no statement through the
    engine is ever refused for a foreign key; the same statements are
    refused on a connection that enforces the declared foreign keys. *)
Theorem dangling_foreign_key_accepted :
  forallb (fun tv => accepted (insert_row network tv.1 tv.2)) dangling = true ∧
  (∀ (db : database) t (vals : row),
     insert_row db t vals ≠ Err ForeignKeyViolation) ∧
  Forall (fun tv => insert (mkConnection true) metadata network tv.1 tv.2
                    = Err ForeignKeyViolation) dangling.
Proof.
  split; [by vm_compute|]. split; [apply insert_row_not_fk|].
  unfold dangling.
  repeat (apply Forall_cons; split; [by vm_compute|]). constructor.
Qed.

(** C2: [create_tables] is idempotent and non-destructive: running it
    again changes nothing; a table that exists keeps exactly its rows; a
    name that is missing becomes an empty table only if the metadata
    declares it; and when every declared table exists the database is
    returned as it was. *)
Theorem create_tables_idempotent_nondestructive (db : database) :
  create_tables (create_tables db) = create_tables db ∧
  (∀ t rows, db !! t = Some rows → create_tables db !! t = Some rows) ∧
  (∀ t, db !! t = None →
     create_tables db !! t =
       if existsb (fun tbl => String.eqb (name tbl) t) metadata
       then Some [] else None) ∧
  (Forall (fun tbl => is_Some (db !! name tbl)) metadata →
   create_tables db = db).
Proof.
  unfold create_tables. split; [apply create_all_idempotent|].
  split; [intros t rows; apply create_all_keeps|].
  split; [intros t; apply create_all_fresh|apply create_all_present].
Qed.

(** C4: every declared table has a primary key; in every state the
    program can reach no two stored rows of a table share their key; and
    an insert that succeeds on a database with unique keys leaves the keys
    unique. *)
Theorem primary_keys_unique :
  map (fun tbl => (name tbl, pk_names tbl)) metadata =
    [ ("pipe", ["Pipe_ID"]); ("weather_station", ["Weather_station_ID"]);
      ("rainfall", ["id"]); ("air_humidity", ["air_humidity_id"]);
      ("air_temperature", ["id"]); ("pipe_seismic_impact", ["id"]);
      ("seismic_activity", ["Seismic_activity_ID"]);
      ("manhole", ["Manhole_ID"]); ("hydraulic_properties", ["Pipe_ID"]);
      ("intervention_history", ["Intervention_ID"]);
      ("inspection", ["Inspection_ID"]); ("defect", ["Defect_ID"]);
      ("failure", ["Failure_ID"]) ] ∧
  (∀ db : database, reachable db → pk_unique db) ∧
  (∀ conn (db db' : database) t (vals : row) key,
     pk_unique db → insert conn metadata db t vals = Ok (db', key) →
     pk_unique db').
Proof.
  split; [by vm_compute|]. split; [apply reachable_pk_unique|].
  intros conn db db' t vals key. apply pk_unique_insert.
Qed.

(** C8: mapper configuration fails on [SeismicActivity.pipes]: its
    [back_populates] names [seismic_activity], which [Pipe] does not
    define (it defines [seismic_impact], and [Seismic_activity_ID] is a
    plain column), so no foreign key joins the two tables either; hence
    building or querying any mapped class fails, while [create_tables]
    creates all thirteen tables. *)
Theorem mapper_configuration_fails :
  mapper_errors Base =
    [ NoForeignKeys "SeismicActivity" "pipes";
      NoSuchProperty "Pipe" "seismic_activity" ] ∧
  (∀ cls, instantiate Base cls = inl (NoForeignKeys "SeismicActivity" "pipes")
          ∧ query Base cls = inl (NoForeignKeys "SeismicActivity" "pipes")) ∧
  lookup_member SeismicActivity "pipes"
    = Some (Rel (relationship "Pipe" "seismic_activity")) ∧
  lookup_member Pipe "seismic_activity" = None ∧
  fst <$> relationships_of (namespace (body Pipe)) =
    [ "weather_station"; "upstream_manhole"; "downstream_manhole";
      "hydraulic_properties"; "interventions"; "failures";
      "seismic_impact"; "inspection" ] ∧
  lookup_column (table_of Pipe) "Seismic_activity_ID"
    = Some (column Integer @: nullable true) ∧
  Forall (fun tbl => create_tables ∅ !! name tbl = Some []) metadata ∧
  length metadata = 13%nat.
Proof.
  split; [by vm_compute|]. split; [intros cls; split; by vm_compute|].
  split; [by vm_compute|]. split; [by vm_compute|].
  split; [by vm_compute|]. split; [by vm_compute|]. split; [|done].
  unfold metadata, Base. simpl map.
  repeat (apply Forall_cons; split; [by vm_compute|]). constructor.
Qed.

Lemma stored_key pk k (vals : row) : stored pk k vals pk = Int k.
Proof. unfold stored. by rewrite String.eqb_refl. Qed.

Lemma stored_other pk k (vals : row) n :
  n ≠ pk → stored pk k vals n = get vals n.
Proof. unfold stored. by intros ->%String.eqb_neq. Qed.

Lemma well_typed_table t tbl (vals : row) :
  lookup_table metadata t = Some tbl → well_typed t vals →
  check_values tbl vals = Ok tt.
Proof. intros Ht (tbl' & Ht' & Hc). congruence. Qed.

(** C7: a defect whose circumferential start and end are clock positions
    between 0 and 12 is stored whichever of the two is larger, so also when
    the end is below the start; the stored row keeps both as given. *)
Theorem defect_circumferential_wrap conn (db : database) rows (vals : row)
    i s e k :
  db !! "defect" = Some rows →
  well_typed "defect" vals →
  key_free rows "Defect_ID" vals k →
  get vals "Inspection_ID" = Int i →
  has_row db "inspection" "Inspection_ID" (Int i) = true →
  get vals "Main_defect_code" ≠ Null →
  get vals "Circumferential_start" = Int s →
  get vals "Circumferential_end" = Int e →
  (0 ≤ s ≤ 12)%Z → (0 ≤ e ≤ 12)%Z →
  let r := stored_row (table_of Defect) "Defect_ID" k vals in
  insert conn metadata db "defect" vals
    = Ok (<["defect" := (rows ++ [r])%list]> db, [Int k]) ∧
  get r "Circumferential_start" = Int s ∧
  get r "Circumferential_end" = Int e.
Proof.
  intros Hdb Hty Hkey Hi Hrow Hcode Hs He _ _ r.
  assert (lookup_table metadata "defect" = Some (table_of Defect)) as Ht
    by reflexivity.
  assert (rowid_table (table_of Defect) "Defect_ID") as Hrt
    by (split; [|split]; reflexivity).
  split; [|split].
  - apply (insert_ok conn metadata db "defect" vals (table_of Defect) rows
             "Defect_ID" k Ht Hdb Hrt (well_typed_table _ _ _ Ht Hty) Hkey).
    + change (not_null_columns (table_of Defect))
        with ["Defect_ID"; "Inspection_ID"; "Main_defect_code"].
      repeat (apply Forall_cons; split); [| | |constructor].
      * by rewrite stored_key.
      * rewrite stored_other by done. by rewrite Hi.
      * by rewrite stored_other.
    + intros _.
      change (fk_columns (table_of Defect))
        with [("Inspection_ID", ("inspection", "Inspection_ID"))].
      apply Forall_cons; split; [|constructor]. right. simpl.
      rewrite stored_other by done. by rewrite Hi.
  - unfold r. rewrite get_stored_row, stored_other, Hs; try done;
      by apply (bool_decide_unpack _); vm_compute.
  - unfold r. rewrite get_stored_row, stored_other, He; try done;
      by apply (bool_decide_unpack _); vm_compute.
Qed.

(** A statement that leaves a required column [NULL] is never stored. *)
Lemma insert_required conn (db db' : database) t tbl (vals : row) key n :
  lookup_table metadata t = Some tbl →
  n ∈ not_null_columns tbl → rowid_alias tbl ≠ Some n →
  get vals n = Null →
  insert conn metadata db t vals ≠ Ok (db', key).
Proof.
  intros Ht Hn Hpk Hnull Hi.
  apply insert_inv in Hi
    as (tbl' & rows & r & Ht' & Hdb & Hty & Ha & Hnn & _).
  assert (tbl' = tbl) as -> by congruence.
  destruct (metadata_rowid _ _ Ht) as [pk Hrt].
  destruct (assign_rowid_stored _ _ _ _ _ Hrt Hty Ha) as (k & -> & _).
  rewrite (check_not_null_stored t tbl pk k vals Hrt) in Hnn.
  destruct (find _ (not_null_columns tbl)) eqn:E; [done|].
  apply find_none with (x := n) in E; [|by apply list_elem_of_In].
  rewrite stored_other, Hnull in E; [done|].
  intros ->. by destruct Hrt as (Hal & _).
Qed.

(** C3: a second hydraulic record for a pipe that already has one is
    refused as a duplicate key; a record for a pipe that exists and has
    none is stored under the pipe's id; and in every reachable state two
    stored hydraulic records never carry the same [Pipe_ID]. *)
Theorem hydraulic_properties_one_per_pipe conn (db : database) rows
    (vals : row) p :
  db !! "hydraulic_properties" = Some rows →
  well_typed "hydraulic_properties" vals →
  get vals "Pipe_ID" = Int p →
  (has_row db "hydraulic_properties" "Pipe_ID" (Int p) = true →
   insert conn metadata db "hydraulic_properties" vals
     = Err (UniqueViolation "hydraulic_properties" ["Pipe_ID"])) ∧
  (has_row db "hydraulic_properties" "Pipe_ID" (Int p) = false →
   has_row db "pipe" "Pipe_ID" (Int p) = true →
   insert conn metadata db "hydraulic_properties" vals
     = Ok (<["hydraulic_properties" :=
               (rows ++ [complete (table_of HydraulicProperties) vals])%list]>
             db, [Int p])) ∧
  (reachable db →
   ∀ i j (r1 r2 : row), rows !! i = Some r1 → rows !! j = Some r2 →
     get r1 "Pipe_ID" = get r2 "Pipe_ID" → i = j).
Proof.
  intros Hdb Hty Hp.
  assert (lookup_table metadata "hydraulic_properties"
          = Some (table_of HydraulicProperties)) as Ht by reflexivity.
  assert (rowid_table (table_of HydraulicProperties) "Pipe_ID") as Hrt
    by (split; [|split]; reflexivity).
  pose proof (well_typed_table _ _ _ Ht Hty) as Hc.
  unfold has_row at 1 2. rewrite Hdb.
  split; [|split].
  - intros Hex.
    apply (insert_duplicate conn metadata db "hydraulic_properties" vals
             (table_of HydraulicProperties) rows "Pipe_ID" p Ht Hdb Hrt Hc Hp Hex).
    change (not_null_columns (table_of HydraulicProperties)) with ["Pipe_ID"].
    cbn [find]. by rewrite stored_key.
  - intros Hex Hpipe.
    rewrite <- (stored_row_explicit _ "Pipe_ID" p vals Hp).
    apply (insert_ok conn metadata db "hydraulic_properties" vals
             (table_of HydraulicProperties) rows "Pipe_ID" p Ht Hdb Hrt Hc).
    + by left.
    + change (not_null_columns (table_of HydraulicProperties)) with ["Pipe_ID"].
      apply Forall_cons; split; [|constructor]. by rewrite stored_key.
    + intros _.
      change (fk_columns (table_of HydraulicProperties))
        with [("Pipe_ID", ("pipe", "Pipe_ID"))].
      apply Forall_cons; split; [|constructor]. right. simpl.
      by rewrite stored_key.
  - intros Hreach i j r1 r2 H1 H2 Heq.
    pose proof (reachable_pk_unique db Hreach (table_of HydraulicProperties)
                  rows) as Hnd.
    eapply NoDup_lookup; [apply Hnd; [|done]| |].
    + apply (lookup_table_elem _ _ _ Ht).
    + change (map (key_of (table_of HydraulicProperties)) rows)
        with (key_of (table_of HydraulicProperties) <$> rows).
      rewrite list_lookup_fmap, H1. done.
    + change (map (key_of (table_of HydraulicProperties)) rows)
        with (key_of (table_of HydraulicProperties) <$> rows).
      rewrite list_lookup_fmap, H2. simpl. f_equal.
      rewrite !(key_of_rowid _ "Pipe_ID") by done. by rewrite Heq.
Qed.

(** C5: the same (pipe, seismic event) pair, both existing, is stored
    twice in a row, on any connection, and the two stored rows carry
    different surrogate ids. *)
Theorem pipe_seismic_impact_duplicates conn (db : database) rows p s :
  db !! "pipe_seismic_impact" = Some rows →
  int64 p = true → int64 s = true →
  Forall (fun i => (i < max_int64 - 1)%Z) (rowids "id" rows) →
  has_row db "pipe" "Pipe_ID" (Int p) = true →
  has_row db "seismic_activity" "Seismic_activity_ID" (Int s) = true →
  ∃ (db1 db2 : database) id1 id2,
    insert conn metadata db "pipe_seismic_impact" (impact p s)
      = Ok (db1, [Int id1]) ∧
    insert conn metadata db1 "pipe_seismic_impact" (impact p s)
      = Ok (db2, [Int id2]) ∧
    id1 ≠ id2 ∧
    db2 !! "pipe_seismic_impact"
      = Some (rows ++ [impact_row p s id1; impact_row p s id2])%list.
Proof.
  intros Hdb Hp Hs Hroom Hpipe Hseis.
  set (tbl := table_of PipeSeismicImpact).
  assert (lookup_table metadata "pipe_seismic_impact" = Some tbl) as Ht
    by reflexivity.
  assert (rowid_table tbl "id") as Hrt by (split; [|split]; reflexivity).
  assert (check_values tbl (impact p s) = Ok tt) as Hc.
  { unfold impact. cbn. by rewrite Hp, Hs. }
  assert (∀ k, stored_row tbl "id" k (impact p s) = impact_row p s k) as Hrow
    by done.
  assert (∀ (d : database) rs k,
            d !! "pipe_seismic_impact" = Some rs →
            has_row d "pipe" "Pipe_ID" (Int p) = true →
            has_row d "seismic_activity" "Seismic_activity_ID" (Int s) = true →
            next_rowid (rowids "id" rs) = Ok k →
            insert conn metadata d "pipe_seismic_impact" (impact p s)
              = Ok (<["pipe_seismic_impact" :=
                        (rs ++ [impact_row p s k])%list]> d, [Int k])) as Hins.
  { intros d rs k Hd Hdp Hds Hk. rewrite <- Hrow.
    apply (insert_ok conn metadata d "pipe_seismic_impact" (impact p s) tbl rs
             "id" k Ht Hd Hrt Hc).
    - by right.
    - change (not_null_columns tbl)
        with ["Pipe_ID"; "Seismic_activity_ID"; "id"].
      repeat (apply Forall_cons; split); [| | |constructor];
        [by rewrite stored_other|by rewrite stored_other|by rewrite stored_key].
    - intros _.
      change (fk_columns tbl)
        with [("Pipe_ID", ("pipe", "Pipe_ID"));
              ("Seismic_activity_ID",
               ("seismic_activity", "Seismic_activity_ID"))].
      repeat (apply Forall_cons; split); [| |constructor];
        right; simpl; by rewrite stored_other. }
  destruct (next_rowid_room (rowids "id" rows) (max_int64 - 1))
    as (id1 & Hid1 & Hle1 & _); [done|done|lia|].
  set (db1 := <["pipe_seismic_impact" :=
                  (rows ++ [impact_row p s id1])%list]> db).
  assert (rowids "id" (rows ++ [impact_row p s id1])
          = (rowids "id" rows ++ [id1])%list) as Hids.
  { unfold rowids. by rewrite omap_app. }
  destruct (next_rowid_room (rowids "id" (rows ++ [impact_row p s id1]))
              (id1 + 1)) as (id2 & Hid2 & _ & Hlt).
  { rewrite Hids. apply Forall_app. split.
    - apply Forall_forall. intros x Hx.
      pose proof (next_rowid_above _ _ _ Hid1 Hx). lia.
    - apply Forall_cons; split; [lia|constructor]. }
  { rewrite Hids. by intros [? ?]%app_eq_nil. }
  { lia. }
  exists db1, (<["pipe_seismic_impact" :=
                 ((rows ++ [impact_row p s id1]) ++ [impact_row p s id2])%list]>
               db1), id1, id2.
  split; [by apply Hins|]. split.
  - apply Hins; [apply lookup_insert_eq| | |done];
      by apply has_row_insert.
  - split.
    + rewrite Hids in Hlt. apply Forall_app in Hlt as [_ Hlt].
      apply Forall_cons in Hlt as [Hlt _]. lia.
    + rewrite lookup_insert_eq. by rewrite <- app_assoc.
Qed.

(** C6: [Failure.Intervention_ID] is declared nullable and
    [Failure.Pipe_ID] is not; a failure on an existing pipe with no
    intervention is stored, with a [NULL] intervention, on any connection;
    a failure without a pipe is refused for the missing [Pipe_ID] and is
    never stored. *)
Theorem failure_intervention_nullable conn (db : database) rows (vals : row)
    k :
  db !! "failure" = Some rows →
  well_typed "failure" vals →
  key_free rows "Failure_ID" vals k →
  let r := stored_row (table_of Failure) "Failure_ID" k vals in
  (is_nullable <$> lookup_column (table_of Failure) "Intervention_ID"
     = Some true ∧
   is_nullable <$> lookup_column (table_of Failure) "Pipe_ID" = Some false) ∧
  (∀ p, get vals "Intervention_ID" = Null →
        get vals "Pipe_ID" = Int p →
        has_row db "pipe" "Pipe_ID" (Int p) = true →
        insert conn metadata db "failure" vals
          = Ok (<["failure" := (rows ++ [r])%list]> db, [Int k]) ∧
        get r "Intervention_ID" = Null) ∧
  (get vals "Pipe_ID" = Null →
   insert conn metadata db "failure" vals
     = Err (NotNullViolation "failure" "Pipe_ID") ∧
   ∀ conn' (db0 db' : database) key,
     insert conn' metadata db0 "failure" vals ≠ Ok (db', key)).
Proof.
  intros Hdb Hty Hkey r.
  assert (lookup_table metadata "failure" = Some (table_of Failure)) as Ht
    by reflexivity.
  assert (rowid_table (table_of Failure) "Failure_ID") as Hrt
    by (split; [|split]; reflexivity).
  pose proof (well_typed_table _ _ _ Ht Hty) as Hc.
  split; [by split|]. split.
  - intros p Hi Hp Hpipe. split.
    + apply (insert_ok conn metadata db "failure" vals (table_of Failure) rows
               "Failure_ID" k Ht Hdb Hrt Hc Hkey).
      * change (not_null_columns (table_of Failure))
          with ["Failure_ID"; "Pipe_ID"].
        repeat (apply Forall_cons; split); [| |constructor].
        -- by rewrite stored_key.
        -- rewrite stored_other by done. by rewrite Hp.
      * intros _.
        change (fk_columns (table_of Failure))
          with [("Pipe_ID", ("pipe", "Pipe_ID"));
                ("Intervention_ID",
                 ("intervention_history", "Intervention_ID"))].
        repeat (apply Forall_cons; split); [| |constructor]; simpl.
        -- right. rewrite stored_other by done. by rewrite Hp.
        -- left. by rewrite stored_other.
    + unfold r. rewrite get_stored_row, stored_other, Hi; try done;
        by apply (bool_decide_unpack _); vm_compute.
  - intros Hp. split.
    + apply (insert_not_null conn metadata db "failure" vals (table_of Failure)
               rows "Failure_ID" k "Pipe_ID" Ht Hdb Hrt Hc Hkey).
      change (not_null_columns (table_of Failure))
        with ["Failure_ID"; "Pipe_ID"].
      cbn [find]. rewrite stored_key. cbn [is_null].
      by rewrite stored_other, Hp.
    + intros conn' db0 db' key.
      apply (insert_required conn' db0 db' "failure" (table_of Failure) vals
               key "Pipe_ID" Ht); [|done|done].
      by apply (bool_decide_unpack _); vm_compute.
Qed.

(** C9: a defect whose [Main_defect_code] is [NULL] is never stored; with
    an inspection given, the error names [Main_defect_code]; and that
    column is the only one in the model that is required without being a
    primary key or a foreign key. *)
Theorem main_defect_code_required conn (db : database) (vals : row) :
  get vals "Main_defect_code" = Null →
  (∀ db' key, insert conn metadata db "defect" vals ≠ Ok (db', key)) ∧
  (∀ rows k,
     db !! "defect" = Some rows → well_typed "defect" vals →
     key_free rows "Defect_ID" vals k →
     get vals "Inspection_ID" ≠ Null →
     insert conn metadata db "defect" vals
       = Err (NotNullViolation "defect" "Main_defect_code")) ∧
  concat (map required_plain_columns metadata)
    = [("defect", "Main_defect_code")].
Proof.
  intros Hnull.
  assert (lookup_table metadata "defect" = Some (table_of Defect)) as Ht
    by reflexivity.
  assert (rowid_table (table_of Defect) "Defect_ID") as Hrt
    by (split; [|split]; reflexivity).
  split; [|split; [|by vm_compute]].
  - intros db' key.
    apply (insert_required conn db db' "defect" (table_of Defect) vals key
             "Main_defect_code" Ht); [|done|done].
    by apply (bool_decide_unpack _); vm_compute.
  - intros rows k Hdb Hty Hkey Hi.
    apply (insert_not_null conn metadata db "defect" vals (table_of Defect)
             rows "Defect_ID" k "Main_defect_code" Ht Hdb Hrt
             (well_typed_table _ _ _ Ht Hty) Hkey).
    change (not_null_columns (table_of Defect))
      with ["Defect_ID"; "Inspection_ID"; "Main_defect_code"].
    cbn [find]. rewrite stored_key. cbn [is_null].
    rewrite !stored_other, Hnull by done.
    by destruct (get vals "Inspection_ID").
Qed.

(** C10: [Pipe.Seismic_activity_ID] is a nullable integer column with no
    foreign key; a pipe carrying any integer there is stored, on any
    connection and whatever the [seismic_activity] table holds, as long as
    its three declared foreign keys resolve where they are enforced; the
    only foreign key into [seismic_activity] is the one of
    [pipe_seismic_impact]. *)
Theorem pipe_seismic_activity_id_unconstrained conn (db : database) rows
    (vals : row) v k :
  db !! "pipe" = Some rows →
  well_typed "pipe" vals →
  key_free rows "Pipe_ID" vals k →
  get vals "Seismic_activity_ID" = Int v →
  (pragma_foreign_keys conn = true →
   resolves db vals "Weather_station_ID" "weather_station" "Weather_station_ID"
   ∧ resolves db vals "Manhole_up_ID" "manhole" "Manhole_ID"
   ∧ resolves db vals "Manhole_down_ID" "manhole" "Manhole_ID") →
  let r := stored_row (table_of Pipe) "Pipe_ID" k vals in
  insert conn metadata db "pipe" vals
    = Ok (<["pipe" := (rows ++ [r])%list]> db, [Int k]) ∧
  get r "Seismic_activity_ID" = Int v ∧
  lookup_column (table_of Pipe) "Seismic_activity_ID"
    = Some (column Integer @: nullable true) ∧
  filter (fun f => f.2 = "seismic_activity") (all_foreign_keys metadata)
    = [("pipe_seismic_impact", "Seismic_activity_ID", "seismic_activity")].
Proof.
  intros Hdb Hty Hkey Hv Hfk r.
  assert (lookup_table metadata "pipe" = Some (table_of Pipe)) as Ht
    by reflexivity.
  assert (rowid_table (table_of Pipe) "Pipe_ID") as Hrt
    by (split; [|split]; reflexivity).
  split; [|split; [|split; by vm_compute]].
  - apply (insert_ok conn metadata db "pipe" vals (table_of Pipe) rows
             "Pipe_ID" k Ht Hdb Hrt (well_typed_table _ _ _ Ht Hty) Hkey).
    + change (not_null_columns (table_of Pipe)) with ["Pipe_ID"].
      apply Forall_cons; split; [|constructor]. by rewrite stored_key.
    + intros Hp. destruct (Hfk Hp) as (Hw & Hu & Hd).
      change (fk_columns (table_of Pipe))
        with [("Weather_station_ID",
               ("weather_station", "Weather_station_ID"));
              ("Manhole_up_ID", ("manhole", "Manhole_ID"));
              ("Manhole_down_ID", ("manhole", "Manhole_ID"))].
      repeat (apply Forall_cons; split); [| | |constructor]; simpl;
        by rewrite stored_other.
  - unfold r. rewrite get_stored_row, stored_other, Hv; try done;
      by apply (bool_decide_unpack _); vm_compute.
Qed.

End Properties.

(* ===================================================================== *)
(** ** The properties on the sample network *)
(* ===================================================================== *)

Section Witnesses.
Import Schema Tables Sqlite Database Integrity Orm Examples.
Local Open Scope Z_scope.

(** The pipe of the network has its hydraulic record; a second one for
    pipe 10 is a duplicate, the first one for pipe 11 is stored. *)
Lemma hydraulic_properties_one_per_pipe_witness :
  insert enforcing metadata network "hydraulic_properties" [("Pipe_ID", Int 10)]
    = Err (UniqueViolation "hydraulic_properties" ["Pipe_ID"]).
Proof.
  refine (proj1 (hydraulic_properties_one_per_pipe enforcing network
                   [complete (table_of HydraulicProperties) [("Pipe_ID", Int 10)]]
                   [("Pipe_ID", Int 10)] 10 _ _ _) _).
  - vm_compute. reflexivity.
  - eexists. split; reflexivity.
  - reflexivity.
  - vm_compute. reflexivity.
Defined.

(** Pipe 10 is hit twice by event 7: rows 1 and 2. *)
Lemma pipe_seismic_impact_duplicates_witness :
  ∃ (db1 db2 : database) id1 id2,
    insert enforcing metadata network "pipe_seismic_impact" (impact 10 7)
      = Ok (db1, [Int id1]) ∧
    insert enforcing metadata db1 "pipe_seismic_impact" (impact 10 7)
      = Ok (db2, [Int id2]) ∧
    id1 ≠ id2 ∧
    db2 !! "pipe_seismic_impact"
      = Some ([] ++ [impact_row 10 7 id1; impact_row 10 7 id2])%list.
Proof.
  apply (pipe_seismic_impact_duplicates enforcing network [] 10 7).
  - vm_compute. reflexivity.
  - reflexivity.
  - reflexivity.
  - simpl. constructor.
  - vm_compute. reflexivity.
  - vm_compute. reflexivity.
Defined.

(** A blockage on pipe 10 with no intervention is failure 1. *)
Lemma failure_intervention_nullable_witness :
  insert enforcing metadata network "failure" blockage
    = Ok (<["failure" :=
              ([] ++ [stored_row (table_of Failure) "Failure_ID" 1 blockage])%list]>
            network, [Int 1]) ∧
  get (stored_row (table_of Failure) "Failure_ID" 1 blockage) "Intervention_ID"
    = Null.
Proof.
  refine (proj1 (proj2 (failure_intervention_nullable enforcing network []
                          blockage 1 _ _ _)) 10 _ _ _).
  - vm_compute. reflexivity.
  - eexists. split; reflexivity.
  - right. split; reflexivity.
  - reflexivity.
  - reflexivity.
  - vm_compute. reflexivity.
Defined.

(** The defect from 11 to 2 o'clock is stored as defect 1. *)
Lemma defect_circumferential_wrap_witness :
  insert enforcing metadata network "defect" wrap_defect
    = Ok (<["defect" :=
              ([] ++ [stored_row (table_of Defect) "Defect_ID" 1 wrap_defect])%list]>
            network, [Int 1]) ∧
  get (stored_row (table_of Defect) "Defect_ID" 1 wrap_defect)
      "Circumferential_start" = Int 11 ∧
  get (stored_row (table_of Defect) "Defect_ID" 1 wrap_defect)
      "Circumferential_end" = Int 2.
Proof.
  apply (defect_circumferential_wrap enforcing network [] wrap_defect 5 11 2 1).
  - vm_compute. reflexivity.
  - eexists. split; reflexivity.
  - right. split; reflexivity.
  - reflexivity.
  - vm_compute. reflexivity.
  - discriminate.
  - reflexivity.
  - reflexivity.
  - lia.
  - lia.
Defined.

(** The defect without a main code is refused for that column. *)
Lemma main_defect_code_required_witness :
  insert (connect engine) metadata network "defect" uncoded_defect
    = Err (NotNullViolation "defect" "Main_defect_code").
Proof.
  refine (proj1 (proj2 (main_defect_code_required (connect engine) network
                          uncoded_defect _)) [] 1 _ _ _ _).
  - reflexivity.
  - vm_compute. reflexivity.
  - eexists. split; reflexivity.
  - right. split; reflexivity.
  - discriminate.
Defined.

(** Pipe 12 names seismic event 4242, which the network does not hold,
    and is stored on a connection that enforces foreign keys. *)
Lemma pipe_seismic_activity_id_unconstrained_witness :
  has_row network "seismic_activity" "Seismic_activity_ID" (Int 4242) = false ∧
  insert enforcing metadata network "pipe" shaken_pipe
    = Ok (<["pipe" :=
              ([complete (table_of Pipe)
                  [("Pipe_ID", Int 10); ("Material", Text "PVC");
                   ("Weather_station_ID", Int 1);
                   ("Manhole_up_ID", Int 100); ("Manhole_down_ID", Int 101)];
                complete (table_of Pipe)
                  [("Pipe_ID", Int 11); ("Material", Text "VC")]]
               ++ [stored_row (table_of Pipe) "Pipe_ID" 12 shaken_pipe])%list]>
            network, [Int 12]).
Proof.
  split; [vm_compute; reflexivity|].
  refine (proj1 (pipe_seismic_activity_id_unconstrained enforcing network _
                   shaken_pipe 4242 12 _ _ _ _ _)).
  - vm_compute. reflexivity.
  - eexists. split; reflexivity.
  - left. split; [reflexivity|vm_compute; reflexivity].
  - reflexivity.
  - intros _. split; [|split].
    + left. reflexivity.
    + right. vm_compute. reflexivity.
    + left. reflexivity.
Defined.

End Witnesses.

(* ===================================================================== *)
(** ** The schema as a whole *)
(* ===================================================================== *)

Section SchemaFacts.
Import Schema Tables Sqlite Database Orm Integrity Invariants.

Lemma find_snoc {A} (f : A → bool) (l : list A) x :
  find f (l ++ [x]) =
    match find f l with
    | Some y => Some y
    | None => if f x then Some x else None
    end.
Proof. induction l as [|y l IH]; simpl; [done|]. by destruct (f y). Qed.

Lemma find_name_none (b : list (string * member)) n :
  existsb (fun nm => String.eqb n (fst nm)) b = false →
  find (fun nm => String.eqb (fst nm) n) b = None.
Proof.
  induction b as [|[n' m] b IH]; simpl; [done|].
  rewrite (String.eqb_sym n n'). destruct (String.eqb n' n); [done|apply IH].
Qed.

Lemma find_name_some (b : list (string * member)) n :
  existsb (fun nm => String.eqb n (fst nm)) b = true →
  is_Some (find (fun nm => String.eqb (fst nm) n) b).
Proof.
  induction b as [|[n' m] b IH]; simpl; [done|].
  rewrite (String.eqb_sym n n'). destruct (String.eqb n' n); [eauto|apply IH].
Qed.

Lemma existsb_rev {A} (f : A → bool) (l : list A) :
  existsb f (rev l) = existsb f l.
Proof.
  induction l as [|x l IH]; simpl; [done|].
  rewrite existsb_app, IH. simpl. by destruct (f x), (existsb f l).
Qed.

Lemma namespace_names (b : list (string * member)) n :
  n ∈ (fst <$> namespace b) → n ∈ (fst <$> b).
Proof.
  induction b as [|[n' m] b IH]; simpl; [done|].
  destruct (existsb _ b); simpl; intros Hin.
  - right. by apply IH.
  - apply elem_of_cons in Hin as [->|Hin]; [left|right; by apply IH].
Qed.

Lemma existsb_name_elem (b : list (string * member)) n :
  existsb (fun nm => String.eqb n (fst nm)) b = false → n ∉ (fst <$> b).
Proof.
  induction b as [|[n' m] b IH]; simpl; intros He Hin.
  - by apply elem_of_nil in Hin.
  - apply orb_false_iff in He as [Hn He].
    apply elem_of_cons in Hin as [->|Hin].
    + by rewrite String.eqb_refl in Hn.
    + by apply IH.
Qed.

(** X1: a class body may assign a name more than once; the class keeps
    one member per name, and it is the last one assigned.  [Pipe] assigns
    [Weather_station_ID] twice: the table has the column once, with the
    foreign key of the second assignment. *)
Theorem namespace_keeps_last_assignment (b : list (string * member)) n :
  (NoDup (fst <$> namespace b) ∧
   snd <$> find (fun nm => String.eqb (fst nm) n) (namespace b)
     = last_binding b n) ∧
  length (List.filter (fun nm => String.eqb (fst nm) "Weather_station_ID")
                      (body Pipe)) = 2%nat ∧
  List.filter (fun nc => String.eqb (fst nc) "Weather_station_ID")
              (columns (table_of Pipe))
    = [("Weather_station_ID",
        column Integer @: ForeignKey "weather_station.Weather_station_ID")].
Proof.
  split; [|by vm_compute].
  unfold last_binding. induction b as [|[n' m] b [IHd IHf]]; simpl.
  - split; [constructor|done].
  - rewrite find_snoc.
    destruct (existsb (fun nm => String.eqb n' nm.1) b) eqn:E; simpl.
    + split; [done|]. rewrite IHf.
      destruct (String.eqb_spec n' n) as [->|_].
      * rewrite <- existsb_rev in E.
        by destruct (find_name_some _ _ E) as [x ->].
      * by destruct (find _ (rev b)).
    + split.
      * constructor; [|done]. intros Hin.
        by apply namespace_names, existsb_name_elem in Hin.
      * destruct (String.eqb_spec n' n) as [->|_].
        -- rewrite <- existsb_rev in E. by rewrite (find_name_none _ _ E).
        -- rewrite IHf. by destruct (find _ (rev b)).
Qed.

Lemma metadata_schema_ok : schema_ok metadata = true.
Proof. by vm_compute. Qed.

Lemma metadata_table_ok tbl : tbl ∈ metadata → table_ok metadata tbl = true.
Proof.
  intros Hin. pose proof metadata_schema_ok as H. unfold schema_ok in H.
  apply andb_true_iff in H as [_ H]. rewrite forallb_forall in H.
  by apply H, list_elem_of_In.
Qed.

Lemma metadata_columns_NoDup tbl :
  tbl ∈ metadata → NoDup (fst <$> columns tbl).
Proof.
  intros Hin. pose proof (metadata_table_ok _ Hin) as H. unfold table_ok in H.
  apply andb_true_iff in H as [H _]. by apply bool_decide_eq_true in H.
Qed.

Lemma metadata_column_ok tbl n c :
  tbl ∈ metadata → (n, c) ∈ columns tbl →
  fk_target_ok metadata c = true ∧ pk_not_null c = true.
Proof.
  intros Hin Hc. pose proof (metadata_table_ok _ Hin) as H.
  unfold table_ok in H. apply andb_true_iff in H as [_ H].
  rewrite forallb_forall in H. apply list_elem_of_In, H in Hc.
  by apply andb_true_iff in Hc.
Qed.

Lemma fk_columns_spec tbl n pt pc :
  (n, (pt, pc)) ∈ fk_columns tbl →
  ∃ c, (n, c) ∈ columns tbl ∧ references c = Some (pt, pc).
Proof.
  unfold fk_columns. intros Hin.
  apply list_elem_of_omap in Hin as ([n' c] & Hin & Heq). simpl in Heq.
  destruct (references c) as [tgt|] eqn:E; simplify_eq/=. by exists c.
Qed.

(** The table a foreign key points at is declared, and keyed by the
    column the foreign key names. *)
Lemma fk_target_declared tbl n pt pc :
  tbl ∈ metadata → (n, (pt, pc)) ∈ fk_columns tbl →
  ∃ ptbl, lookup_table metadata pt = Some ptbl ∧ pk_names ptbl = [pc].
Proof.
  intros Hin Hf. apply fk_columns_spec in Hf as (c & Hc & Hr).
  destruct (metadata_column_ok _ _ _ Hin Hc) as [Hfk _].
  unfold fk_target_ok in Hfk. rewrite Hr in Hfk.
  destruct (lookup_table metadata pt) as [ptbl|]; [|done].
  apply andb_true_iff in Hfk as [H1 _]. apply bool_decide_eq_true in H1.
  by exists ptbl.
Qed.

(** X2: the declared schema is consistent: table names are distinct, the
    column names of a table are distinct, no primary-key column is
    nullable, and every [ForeignKey] names a declared table, the single
    column of that table's primary key, and a column of its own type. *)
Theorem schema_well_formed :
  NoDup (name <$> metadata) ∧
  ∀ tbl, tbl ∈ metadata →
    NoDup (fst <$> columns tbl) ∧
    ∀ n c, (n, c) ∈ columns tbl →
      (primary_key c = true → is_nullable c = false) ∧
      ∀ pt pc, references c = Some (pt, pc) →
        ∃ ptbl, lookup_table metadata pt = Some ptbl ∧
                pk_names ptbl = [pc] ∧
                type_ <$> lookup_column ptbl pc = Some (type_ c).
Proof.
  split.
  - pose proof metadata_schema_ok as H. unfold schema_ok in H.
    apply andb_true_iff in H as [H _]. by apply bool_decide_eq_true in H.
  - intros tbl Hin. split; [by apply metadata_columns_NoDup|].
    intros n c Hc. destruct (metadata_column_ok _ _ _ Hin Hc) as [Hfk Hpk].
    split.
    + intros Hp. unfold pk_not_null in Hpk. rewrite Hp in Hpk. simpl in Hpk.
      by apply negb_true_iff.
    + intros pt pc Hr. unfold fk_target_ok in Hfk. rewrite Hr in Hfk.
      destruct (lookup_table metadata pt) as [ptbl|]; [|done].
      apply andb_true_iff in Hfk as [H1 H2].
      apply bool_decide_eq_true in H1, H2. by exists ptbl.
Qed.

(** X10: of the 29 declared relationships, 28 pair up with the property
    their [back_populates] names (each names the other, across one foreign
    key, many-to-one against one-to-many); the odd one is
    [SeismicActivity.pipes], and without it mapper configuration finds
    nothing wrong. *)
Theorem relationships_pair_up_but_one :
  length (all_relationships Base) = 29%nat ∧
  map (fun cr => (class_name cr.1, cr.2.1))
      (List.filter (fun cr => negb (paired Base cr.1 cr.2))
                   (all_relationships Base))
    = [("SeismicActivity", "pipes")] ∧
  mapper_errors (registry_without "SeismicActivity" "pipes" Base) = [] ∧
  (∀ cls, instantiate (registry_without "SeismicActivity" "pipes" Base) cls
          = inr (lookup_class
                   (registry_without "SeismicActivity" "pipes" Base) cls)) ∧
  table_of <$> registry_without "SeismicActivity" "pipes" Base = metadata.
Proof.
  split; [by vm_compute|]. split; [by vm_compute|].
  assert (mapper_errors (registry_without "SeismicActivity" "pipes" Base) = [])
    as He by (by vm_compute).
  split; [done|]. split; [|by vm_compute].
  intros cls. unfold instantiate, configure_mappers. by rewrite He.
Qed.

End SchemaFacts.

(* ===================================================================== *)
(** ** Inserts and bootstrap, for every table *)
(* ===================================================================== *)

Section InsertFacts.
Import Schema Tables Sqlite Database Orm Integrity Invariants Examples.

(** An insert is its connection-independent part followed by the
    foreign-key pass of the connection. *)
Lemma insert_prepare conn md (db : database) t (vals : row) :
  insert conn md db t vals =
    match prepare md db t vals with
    | Ok (tbl, rows, r) =>
        let db' := <[t := (rows ++ [r])%list]> db in
        (if pragma_foreign_keys conn
         then check_foreign_keys db' (columns tbl) r
         else Ok tt);;
        Ok (db', key_of tbl r)
    | Err e => Err e
    end.
Proof.
  unfold insert, prepare.
  destruct (lookup_table md t) as [tbl|]; [|done].
  destruct (db !! t) as [rows|]; [|done].
  destruct (check_values tbl vals) as [[]|]; [|done]. rewrite !bind_Ok.
  destruct (assign_rowid tbl rows (complete tbl vals)) as [r|]; [|done].
  rewrite !bind_Ok.
  destruct (check_not_null t (columns tbl) r) as [[]|]; [|done].
  rewrite !bind_Ok.
  by destruct (check_primary_key tbl rows r) as [[]|].
Qed.

Lemma prepare_inv md (db : database) t (vals : row) tbl rows r :
  prepare md db t vals = Ok (tbl, rows, r) →
  lookup_table md t = Some tbl ∧ db !! t = Some rows ∧
  check_values tbl vals = Ok tt ∧
  assign_rowid tbl rows (complete tbl vals) = Ok r ∧
  check_not_null t (columns tbl) r = Ok tt ∧
  check_primary_key tbl rows r = Ok tt.
Proof.
  unfold prepare. intros H.
  destruct (lookup_table md t) as [tbl'|]; [|done].
  destruct (db !! t) as [rows'|]; [|done].
  destruct (check_values tbl' vals) as [[]|] eqn:E1; [|done].
  rewrite bind_Ok in H.
  destruct (assign_rowid tbl' rows' (complete tbl' vals)) as [r'|] eqn:E2;
    [|done].
  rewrite bind_Ok in H.
  destruct (check_not_null t (columns tbl') r') as [[]|] eqn:E3; [|done].
  rewrite bind_Ok in H.
  destruct (check_primary_key tbl' rows' r') as [[]|] eqn:E4; [|done].
  rewrite bind_Ok in H. by simplify_eq.
Qed.

(** The connection-independent part fails for a missing table only when
    the table itself is missing. *)
Lemma prepare_no_such_table md (db : database) t (vals : row) t' :
  prepare md db t vals = Err (NoSuchTable t') →
  t' = t ∧ (lookup_table md t = None ∨ db !! t = None).
Proof.
  unfold prepare. intros H.
  destruct (lookup_table md t) as [tbl|]; [|by simplify_eq; eauto].
  destruct (db !! t) as [rows|]; [|by simplify_eq; eauto].
  exfalso.
  assert (check_values tbl vals ≠ Err (NoSuchTable t')) as Hv.
  { clear H. induction vals as [|[c v] vals IH]; simpl; [done|].
    destruct (lookup_column tbl c); [|done]. by destruct (fits _ v). }
  destruct (check_values tbl vals) as [[]|]; [|rewrite bind_Err in H; congruence].
  rewrite bind_Ok in H.
  assert (assign_rowid tbl rows (complete tbl vals) ≠ Err (NoSuchTable t'))
    as Ha.
  { unfold assign_rowid. destruct (rowid_alias tbl); [|done].
    destruct (get _ _); try done. unfold next_rowid.
    destruct (rowids _ _); [done|]. by destruct (_ <? _)%Z. }
  destruct (assign_rowid tbl rows (complete tbl vals)) as [r|];
    [|rewrite bind_Err in H; congruence].
  rewrite bind_Ok, check_not_null_find in H.
  destruct (find _ (not_null_columns tbl)); [done|]. rewrite bind_Ok in H.
  unfold check_primary_key in H.
  destruct (pk_names tbl); [done|].
  destruct (bool_decide _); [done|]. by destruct (bool_decide _).
Qed.

Lemma is_null_true v : is_null v = true → v = Null.
Proof. by destruct v. Qed.

Lemma check_fk_list_inv (db : database) fks (r : row) :
  check_fk_list db fks r = Ok tt →
  Forall (fun f => get r f.1 = Null ∨
                   has_row db f.2.1 f.2.2 (get r f.1) = true) fks.
Proof.
  induction fks as [|[n [pt pc]] fks IH]; simpl; intros H; [constructor|].
  destruct (is_null (get r n)) eqn:En.
  - constructor; [left; by apply is_null_true|by apply IH].
  - destruct (db !! pt); [|done].
    destruct (has_row db pt pc (get r n)) eqn:Eh; [|done].
    constructor; [by right|by apply IH].
Qed.

(** The foreign-key pass fails only for a violation, or for a target table
    that does not exist. *)
Lemma check_fk_list_err (db : database) fks (r : row) e :
  check_fk_list db fks r = Err e →
  e = ForeignKeyViolation ∨
  ∃ f, f ∈ fks ∧ e = NoSuchTable f.2.1 ∧ db !! f.2.1 = None.
Proof.
  induction fks as [|[n [pt pc]] fks IH]; simpl; intros H; [done|].
  assert (check_fk_list db fks r = Err e →
          e = ForeignKeyViolation ∨
          ∃ f, f ∈ (n, (pt, pc)) :: fks ∧ e = NoSuchTable f.2.1
               ∧ db !! f.2.1 = None) as IH'.
  { intros H'. destruct (IH H') as [->|(f & Hf & He & Hd)]; [by left|].
    right. exists f. split; [by right|done]. }
  destruct (is_null (get r n)); [by apply IH'|].
  destruct (db !! pt) eqn:Ep.
  - destruct (has_row db pt pc (get r n)); [by apply IH'|].
    left. by simplify_eq.
  - right. exists (n, (pt, pc)). simplify_eq. split; [left|done].
Qed.

(** Where the key of the stored row comes from. *)
Lemma assign_rowid_cases tbl pk (rows : list row) (vals r : row) :
  rowid_table tbl pk → check_values tbl vals = Ok tt →
  assign_rowid tbl rows (complete tbl vals) = Ok r →
  ∃ k, r = stored_row tbl pk k vals ∧ get r pk = Int k ∧
       ((get vals pk = Int k ∧ int64 k = true) ∨
        (get vals pk = Null ∧ next_rowid (rowids pk rows) = Ok k)).
Proof.
  intros Hrt Hty Ha. pose proof (rowid_table_column _ _ Hrt) as Hcol.
  destruct Hrt as (Hal & Hpk & Hc).
  destruct (lookup_column tbl pk) as [c|] eqn:E; [|done].
  simpl in Hc. pose proof (check_values_fits _ _ _ _ Hty E) as Hfit.
  assert (type_ c = Integer) as Hc' by congruence. rewrite Hc' in Hfit.
  unfold assign_rowid in Ha. rewrite Hal, get_complete in Ha by done.
  apply fits_Integer in Hfit as [Hn|(k & Hk & Hr)].
  - rewrite Hn in Ha.
    destruct (next_rowid (rowids pk rows)) as [k|] eqn:En; [|done].
    rewrite bind_Ok in Ha. simplify_eq. exists k. split; [done|].
    split; [|by right]. apply get_set_eq. by rewrite complete_names.
  - rewrite Hk in Ha. simplify_eq. exists k.
    rewrite stored_row_explicit by done. split; [done|].
    split; [by rewrite get_complete|by left].
Qed.

Lemma insert_prepared conn (db db' : database) t (vals : row) key :
  insert conn metadata db t vals = Ok (db', key) →
  ∃ tbl rows r,
    prepare metadata db t vals = Ok (tbl, rows, r) ∧
    db' = <[t := (rows ++ [r])%list]> db ∧ key = key_of tbl r ∧
    (pragma_foreign_keys conn = true →
     check_foreign_keys db' (columns tbl) r = Ok tt).
Proof.
  rewrite insert_prepare. intros H.
  destruct (prepare metadata db t vals) as [[[tbl rows] r]|]; [|done].
  simpl in H. exists tbl, rows, r.
  destruct (pragma_foreign_keys conn).
  - destruct (check_foreign_keys _ (columns tbl) r) as [[]|] eqn:E; [|done].
    rewrite bind_Ok in H. by simplify_eq.
  - rewrite bind_Ok in H. by simplify_eq.
Qed.


Lemma rowids_elem pk (rows : list row) k :
  k ∈ rowids pk rows ↔ ∃ r, r ∈ rows ∧ get r pk = Int k.
Proof.
  unfold rowids. rewrite list_elem_of_omap. split.
  - intros (r & Hin & Hk). exists r. split; [done|].
    destruct (get r pk); by simplify_eq.
  - intros (r & Hin & Hk). exists r. split; [done|]. by rewrite Hk.
Qed.



(** X4: before bootstrap every insert fails for the missing table; after
    [create_tables] an insert into a declared table never fails for a
    missing table, on any connection, the tables its foreign keys point at
    included; a table the schema does not declare stays unknown. *)
Theorem bootstrap_before_insert conn t (vals : row) :
  insert conn metadata ∅ t vals = Err (NoSuchTable t) ∧
  ∀ db : database,
    (is_Some (lookup_table metadata t) →
     ∀ t', insert conn metadata (create_tables db) t vals
           ≠ Err (NoSuchTable t')) ∧
    (lookup_table metadata t = None →
     insert conn metadata (create_tables db) t vals = Err (NoSuchTable t)).
Proof.
  split.
  - unfold insert. rewrite lookup_empty.
    by destruct (lookup_table metadata t).
  - intros db. split.
    + intros [tbl Ht] t'. rewrite insert_prepare.
      pose proof (lookup_table_elem _ _ _ Ht) as [Hin Hname].
      pose proof (create_all_complete metadata db) as Hall.
      rewrite Forall_forall in Hall.
      destruct (prepare metadata (create_tables db) t vals)
        as [[[tbl' rows] r]|e] eqn:Ep.
      * apply prepare_inv in Ep as (Ht' & _).
        assert (tbl' = tbl) as -> by congruence.
        cbv beta iota zeta.
        destruct (pragma_foreign_keys conn); [|by rewrite bind_Ok].
        rewrite check_foreign_keys_list.
        destruct (check_fk_list _ (fk_columns tbl) r) as [[]|e] eqn:E;
          [by rewrite bind_Ok|].
        rewrite bind_Err.
        apply check_fk_list_err in E as [->|([n [pt pc]] & Hf & -> & Hd)];
          [done|].
        exfalso. simpl in Hd.
        destruct (fk_target_declared _ _ _ _ Hin Hf) as (ptbl & Hpt & _).
        apply lookup_table_elem in Hpt as [Hpin Hpname].
        destruct (Hall _ Hpin) as [prows Hprows]. rewrite Hpname in Hprows.
        assert (is_Some (<[t := (rows ++ [r])%list]> (create_tables db) !! pt))
          as [? Hs]; [|congruence].
        apply lookup_insert_is_Some'. right. unfold create_tables. eauto.
      * intros [= ->]. apply prepare_no_such_table in Ep as [_ [Hn|Hn]];
          [congruence|].
        destruct (Hall _ Hin) as [rows Hrows]. rewrite Hname in Hrows.
        unfold create_tables in Hn. congruence.
    + intros Hn. unfold insert. by rewrite Hn.
Qed.


Lemma has_row_create_all md (db : database) t c v :
  has_row (create_all md db) t c v = has_row db t c v.
Proof.
  unfold has_row. destruct (db !! t) as [rows|] eqn:E.
  - by rewrite (create_all_keeps _ _ _ _ E).
  - rewrite (create_all_fresh _ _ _ E). by destruct (existsb _ md).
Qed.


End InsertFacts.

(* ===================================================================== *)
(** ** Invariants of the stored data *)
(* ===================================================================== *)

Section StateInvariants.
Import Schema Tables Sqlite Database Orm Integrity Invariants Examples.

Lemma set_names (r : row) pk v : fst <$> set r pk v = fst <$> r.
Proof.
  induction r as [|[c v'] r IH]; [done|]. simpl in *.
  destruct (String.eqb_spec c pk) as [->|_]; simpl; by f_equal.
Qed.

Lemma next_rowid_int64 (ids : list Z) k :
  Forall (fun i => int64 i = true) ids → next_rowid ids = Ok k →
  int64 k = true.
Proof.
  intros Hall Hn. destruct ids as [|i rest]; simpl in Hn.
  - by simplify_eq.
  - pose proof (foldr_max_in i rest) as Hin.
    rewrite Forall_forall in Hall. pose proof (Hall _ Hin) as Hm.
    destruct (Z.ltb_spec (foldr Z.max i rest) max_int64); simplify_eq.
    unfold int64, min_int64, max_int64 in *.
    apply andb_true_iff in Hm as [H1 H2].
    apply Z.leb_le in H1, H2. apply andb_true_iff.
    split; apply Z.leb_le; lia.
Qed.

(** The keys stored in a table of well-formed rows are 64-bit. *)
Lemma rowids_int64 tbl pk (rows : list row) :
  rowid_table tbl pk → Forall (row_ok tbl) rows →
  Forall (fun i => int64 i = true) (rowids pk rows).
Proof.
  intros Hrt Hok. apply Forall_forall. intros i Hi.
  apply rowids_elem in Hi as (r & Hr & Hk).
  rewrite Forall_forall in Hok. destruct (Hok _ Hr) as (_ & _ & Hkey).
  destruct Hrt as (_ & Hpk & _). rewrite Hpk in Hkey.
  apply Forall_cons in Hkey as [(k & Hk' & Hk64) _]. congruence.
Qed.

(** A table that bootstrap adds is empty. *)
Lemma create_all_new_empty md (db : database) t rows :
  db !! t = None → create_all md db !! t = Some rows → rows = [].
Proof.
  intros E Hl. rewrite (create_all_fresh _ _ _ E) in Hl.
  destruct (existsb _ md); by simplify_eq.
Qed.

Lemma db_ok_create_all md (db : database) :
  db_ok db → db_ok (create_all md db).
Proof.
  intros Hok tbl rows Hin Hl.
  destruct (db !! name tbl) as [rows0|] eqn:E.
  - rewrite (create_all_keeps _ _ _ _ E) in Hl. simplify_eq. by eapply Hok.
  - rewrite (create_all_new_empty _ _ _ _ E Hl). constructor.
Qed.

Lemma db_ok_insert conn (db db' : database) t (vals : row) key :
  db_ok db → insert conn metadata db t vals = Ok (db', key) → db_ok db'.
Proof.
  intros Hok Hi.
  apply insert_prepared in Hi as (tbl & rows & r & Hp & -> & _ & _).
  apply prepare_inv in Hp as (Ht & Hdb & Hty & Ha & Hnn & _).
  destruct (metadata_rowid _ _ Ht) as [pk Hrt].
  pose proof (lookup_table_elem _ _ _ Ht) as [Hin Hname].
  destruct (assign_rowid_cases _ _ _ _ _ Hrt Hty Ha) as (k & -> & Hk & Hsrc).
  assert (Forall (row_ok tbl) rows) as Hrows.
  { apply Hok; [done|]. by rewrite Hname. }
  assert (int64 k = true) as Hk64.
  { destruct Hsrc as [[_ ?]|[_ Hn]]; [done|].
    eapply next_rowid_int64; [|exact Hn]. by eapply rowids_int64. }
  intros tbl' rows' Hin' Hl'.
  destruct (decide (name tbl' = t)) as [Heq|Hne].
  2:{ rewrite lookup_insert_ne in Hl' by done. by eapply Hok. }
  assert (tbl' = tbl) as ->.
  { pose proof metadata_lookup as Hall. rewrite Forall_forall in Hall.
    specialize (Hall _ Hin'). rewrite Heq in Hall. congruence. }
  rewrite Heq, lookup_insert_eq in Hl'. simplify_eq.
  apply Forall_app. split; [done|]. apply Forall_cons; split; [|constructor].
  split; [|split].
  - unfold stored_row. by rewrite set_names, complete_names.
  - rewrite check_not_null_find in Hnn.
    destruct (find _ (not_null_columns tbl)) eqn:Ef; [done|].
    apply Forall_forall. intros n Hn Hget.
    apply find_none with (x := n) in Ef; [by rewrite Hget in Ef|].
    by apply list_elem_of_In.
  - destruct Hrt as (_ & -> & _).
    apply Forall_cons; split; [by exists k|constructor].
Qed.

Lemma reachable_exec (db : database) t (vals : row) :
  reachable db → reachable (exec db t vals).
Proof.
  intros Hr. unfold exec, insert_row.
  destruct (insert _ metadata db t vals) as [[db' key]|] eqn:E; [|done].
  by eapply reachable_insert.
Qed.

(** X5: in every state the program can reach, each stored row has exactly
    the columns of its table, in order; no column declared
    [nullable=False], nor any primary key, is [NULL]; and every primary
    key is an integer within 64 bits. *)
Theorem stored_rows_well_formed (db : database) : reachable db → db_ok db.
Proof.
  induction 1 as [|db _ IH|conn db t vals db' key _ IH Hi].
  - intros tbl rows _ H. by rewrite lookup_empty in H.
  - by apply db_ok_create_all.
  - by eapply db_ok_insert.
Qed.

Lemma fk_sound_create_all md (db : database) :
  fk_sound db → fk_sound (create_all md db).
Proof.
  intros Hs tbl rows Hin Hl.
  destruct (db !! name tbl) as [rows0|] eqn:E.
  - rewrite (create_all_keeps _ _ _ _ E) in Hl. simplify_eq.
    eapply Forall_impl; [by eapply Hs|]. intros r Hr. unfold row_refs_ok in *.
    eapply Forall_impl; [exact Hr|]. intros f Hf. simpl in Hf.
    by rewrite has_row_create_all.
  - rewrite (create_all_new_empty _ _ _ _ E Hl). constructor.
Qed.

Lemma fk_sound_insert conn (db db' : database) t (vals : row) key :
  pragma_foreign_keys conn = true →
  fk_sound db → insert conn metadata db t vals = Ok (db', key) →
  fk_sound db'.
Proof.
  intros Hp Hs Hi.
  apply insert_prepared in Hi as (tbl & rows & r & Hpre & -> & _ & Hfk).
  apply prepare_inv in Hpre as (Ht & Hdb & _).
  pose proof (lookup_table_elem _ _ _ Ht) as [Hin Hname].
  specialize (Hfk Hp). rewrite check_foreign_keys_list in Hfk.
  apply check_fk_list_inv in Hfk.
  assert (∀ tbl0 rows0, tbl0 ∈ metadata → db !! name tbl0 = Some rows0 →
            Forall (row_refs_ok (<[t := (rows ++ [r])%list]> db) tbl0) rows0)
    as Hold.
  { intros tbl0 rows0 Hin0 Hl0.
    eapply Forall_impl; [by eapply Hs|]. intros r0 Hr0.
    unfold row_refs_ok in *. eapply Forall_impl; [exact Hr0|].
    intros f [Hf|Hf]; [by left|right]. by apply has_row_insert. }
  intros tbl' rows' Hin' Hl'.
  destruct (decide (name tbl' = t)) as [Heq|Hne].
  2:{ rewrite lookup_insert_ne in Hl' by done. by apply Hold. }
  assert (tbl' = tbl) as ->.
  { pose proof metadata_lookup as Hall. rewrite Forall_forall in Hall.
    specialize (Hall _ Hin'). rewrite Heq in Hall. congruence. }
  rewrite Heq, lookup_insert_eq in Hl'. simplify_eq.
  apply Forall_app. split.
  - by apply Hold.
  - apply Forall_cons; split; [done|constructor].
Qed.

Lemma reachable_enforcing_exec conn (db : database) t (vals : row) :
  pragma_foreign_keys conn = true →
  reachable_enforcing db → reachable_enforcing (exec_on conn db t vals).
Proof.
  intros Hp Hr. unfold exec_on.
  destruct (insert conn metadata db t vals) as [[db' key]|] eqn:E; [|done].
  by eapply enforcing_insert.
Qed.

(** X6: what the declared foreign keys guarantee once they are enforced:
    if every insert runs on a connection with the [foreign_keys] pragma
    on, then in every state reached no stored row is an orphan: each of
    its foreign keys is [NULL] or the key of a stored row of the target
    table. *)
Theorem referential_integrity_when_enforced (db : database) :
  reachable_enforcing db → fk_sound db.
Proof.
  induction 1 as [|db _ IH|conn db t vals db' key _ IH Hp Hi].
  - intros tbl rows _ H. by rewrite lookup_empty in H.
  - by apply fk_sound_create_all.
  - by eapply fk_sound_insert.
Qed.

(** X11: on every table, a statement that names a key already stored in
    that table is never stored. *)
Theorem duplicate_key_never_stored conn (db db' : database) t (vals : row)
    key tbl pk k :
  lookup_table metadata t = Some tbl → rowid_alias tbl = Some pk →
  get vals pk = Int k → has_row db t pk (Int k) = true →
  insert conn metadata db t vals ≠ Ok (db', key).
Proof.
  intros Ht Hal Hv Hex Hi.
  apply insert_prepared in Hi as (tbl' & rows & r & Hp & _).
  apply prepare_inv in Hp as (Ht' & Hdb & Hty & Ha & _ & Hpk).
  assert (tbl' = tbl) as -> by congruence.
  destruct (metadata_rowid _ _ Ht) as [pk' Hrt].
  assert (pk' = pk) as -> by (destruct Hrt as (? & _); congruence).
  destruct (assign_rowid_cases _ _ _ _ _ Hrt Hty Ha)
    as (k' & -> & Hk & [[Hv' _]|[Hv' _]]); [|congruence].
  assert (k' = k) as -> by congruence.
  destruct Hrt as (_ & Hnames & _).
  rewrite (check_primary_key_rowid tbl pk rows _ k Hnames Hk) in Hpk.
  unfold has_row in Hex. rewrite Hdb in Hex. by rewrite Hex in Hpk.
Qed.

End StateInvariants.

(* ===================================================================== *)
(** ** The further properties on the sample data *)
(* ===================================================================== *)

Import Schema Tables Sqlite Database Orm Integrity Invariants Examples.
Local Open Scope Z_scope.




(** The rows of the sample network are well formed. *)
Lemma stored_rows_well_formed_witness : db_ok network.
Proof.
  apply stored_rows_well_formed. unfold network, fresh. cbv zeta.
  repeat apply reachable_exec. apply reachable_create, reachable_empty.
Defined.

(** The rows loaded on the enforcing connection: the defect of the
    inspection that exists is stored, the one of inspection 2 is not, and
    no stored row is an orphan. *)
Lemma referential_integrity_when_enforced_witness :
  fk_sound enforced_network.
Proof.
  apply referential_integrity_when_enforced.
  unfold enforced_network. cbv zeta.
  repeat (apply reachable_enforcing_exec; [reflexivity|]).
  apply enforcing_create, enforcing_empty.
Defined.

(** A second pipe 10 is not stored. *)
Lemma duplicate_key_never_stored_witness :
  insert (connect engine) metadata network "pipe" [("Pipe_ID", Int 10)]
    ≠ Ok (network, [Int 10]).
Proof.
  apply (duplicate_key_never_stored (connect engine) network network "pipe"
           [("Pipe_ID", Int 10)] [Int 10] (table_of Pipe) "Pipe_ID" 10).
  - reflexivity.
  - reflexivity.
  - reflexivity.
  - vm_compute. reflexivity.
Defined.
